(** * The default pmem2 data mover (src/libpmem2/mover.c)

    A shallow embedding of the synchronous virtual data mover: the four
    callbacks of its vtable ([sync_operation_new], [sync_operation_delete],
    [sync_operation_check], [sync_operation_start]), the mover's lifecycle
    ([mover_new], [mover_delete]) and the public entry point
    [pmem2_memcpy_async].

    The C code works on a heap through pointers, may abort the process
    (FATAL) and has undefined behaviour on dangling pointers.  It is modelled
    in a state-and-outcome monad over an explicit [world]: the live heap
    objects the file touches, the calling thread's errno and the trace of
    calls that leave the file (the region's durable copy functions and the
    atomic accesses to the completion flag).  LOG statements have no effect
    on the program state and are left out. *)

From Stdlib Require Import ZArith Lia.
From stdpp Require Import gmap strings list fin_maps.

Local Open Scope Z_scope.

(** ** Values *)

(** Pointers are addresses; the null pointer is address 0. *)
Abbreviation ptr := Z (only parsing).
Definition NULL : ptr := 0.

(** [enum vdm_operation_type].  The file names two enumerators; every other
    value an object of the enumerated type can hold is [VDM_OPERATION_other],
    the [default:] branch of the switches. *)
Inductive vdm_operation_type :=
  | VDM_OPERATION_MEMCPY
  | VDM_OPERATION_MEMMOVE
  | VDM_OPERATION_other (tag : Z).

(** [enum vdm_result]: the file only names [VDM_SUCCESS]. *)
Inductive vdm_result :=
  | VDM_SUCCESS
  | VDM_ERROR (code : Z).

(** [enum future_state]. *)
Inductive future_state :=
  | FUTURE_STATE_IDLE
  | FUTURE_STATE_RUNNING
  | FUTURE_STATE_COMPLETE.

(** The values of [future_notifier.notifier_used]. *)
Inductive future_notifier_type :=
  | FUTURE_NOTIFIER_NONE
  | FUTURE_NOTIFIER_WAKER
  | FUTURE_NOTIFIER_POLLER.

Inductive memory_order :=
  | memory_order_relaxed
  | memory_order_acquire
  | memory_order_release
  | memory_order_seq_cst.

#[global] Instance vdm_operation_type_eq_dec : EqDecision vdm_operation_type.
Proof. solve_decision. Defined.
#[global] Instance vdm_result_eq_dec : EqDecision vdm_result.
Proof. solve_decision. Defined.
#[global] Instance future_state_eq_dec : EqDecision future_state.
Proof. solve_decision. Defined.
#[global] Instance future_notifier_type_eq_dec : EqDecision future_notifier_type.
Proof. solve_decision. Defined.
#[global] Instance memory_order_eq_dec : EqDecision memory_order.
Proof. solve_decision. Defined.

(** [struct vdm_operation]: the kind and the [data] union.  The code reads
    the union through its [memcpy] member for both kinds
    ([operation->data.memcpy.dest] in the MEMMOVE branches too), so the
    union is kept as the one block of fields that member names. *)
Record vdm_operation := {
  op_type : vdm_operation_type;   (* operation->type *)
  data_dest : ptr;                (* operation->data.memcpy.dest *)
  data_src : ptr;                 (* operation->data.memcpy.src *)
  data_n : Z;                     (* operation->data.memcpy.n *)
  data_flags : Z                  (* operation->data.memcpy.flags *)
}.

(** [struct vdm_operation_output]; [output.memcpy.dest] and
    [output.memmove.dest] are the same storage of the [output] union. *)
Record vdm_operation_output := {
  out_type : vdm_operation_type;  (* output->type *)
  out_result : vdm_result;        (* output->result *)
  out_dest : ptr                  (* output->output.memcpy.dest *)
}.

(** [struct future_notifier], as far as the file writes it. *)
Record future_notifier := {
  notifier_used : future_notifier_type
}.

(** The static callbacks of the file, as the values a function pointer of
    the vtable can hold. *)
Inductive callback :=
  | fn_sync_operation_new
  | fn_sync_operation_delete
  | fn_sync_operation_check
  | fn_sync_operation_start
  | fn_indeterminate (bits : Z).

(** [struct vdm]. *)
Record vdm := {
  op_new : callback;
  op_delete : callback;
  op_check : callback;
  op_start : callback
}.

(** [struct data_mover]. *)
Record data_mover := {
  dm_base : vdm;       (* base, must be first: a data_mover* is a vdm* *)
  dm_map : ptr;        (* map *)
  dm_membuf : ptr      (* membuf *)
}.

(** [struct data_mover_op]. *)
Record data_mover_op := {
  dmo_op : vdm_operation;   (* op *)
  dmo_complete : Z          (* complete *)
}.

(** [struct pmem2_map], as far as the file reads it: the two durable copy
    functions (identified by their addresses) and the map's mover. *)
Record pmem2_map := {
  map_memcpy_fn : Z;
  map_memmove_fn : Z;
  map_vdm : ptr
}.

(** An operation slot handed out by a membuf: the allocator it came from,
    its size and its contents. *)
Record slot := {
  slot_membuf : ptr;
  slot_size : Z;
  slot_val : data_mover_op
}.

(** A live membuf: the user data it was created with. *)
Record membuf := {
  mb_user_data : ptr
}.

(** What leaves the file. *)
Inductive event :=
  | EvMemFn (fn : Z) (dest src : ptr) (n : Z) (flags : Z)
  | EvAtomicLoad32 (slot_addr : ptr) (value : Z) (mo : memory_order)
  | EvAtomicStore32 (slot_addr : ptr) (value : Z) (mo : memory_order).

(** ** The world *)

Record world := {
  movers : gmap Z data_mover;   (* live [struct data_mover] objects *)
  membufs : gmap Z membuf;      (* live allocators *)
  slots : gmap Z slot;          (* live operation slots *)
  maps : gmap Z pmem2_map;      (* the mapped regions *)
  heap_avail : Z;               (* bytes of backing memory still available *)
  junk : Z;                     (* the bits found in memory never written *)
  errno : Z;
  trace : list event            (* oldest first *)
}.

Definition set_movers (f : gmap Z data_mover → gmap Z data_mover) (w : world) : world :=
  {| movers := f (movers w); membufs := membufs w; slots := slots w;
     maps := maps w; heap_avail := heap_avail w; junk := junk w;
     errno := errno w; trace := trace w |}.

Definition set_membufs (f : gmap Z membuf → gmap Z membuf) (w : world) : world :=
  {| movers := movers w; membufs := f (membufs w); slots := slots w;
     maps := maps w; heap_avail := heap_avail w; junk := junk w;
     errno := errno w; trace := trace w |}.

Definition set_slots (f : gmap Z slot → gmap Z slot) (w : world) : world :=
  {| movers := movers w; membufs := membufs w; slots := f (slots w);
     maps := maps w; heap_avail := heap_avail w; junk := junk w;
     errno := errno w; trace := trace w |}.

Definition set_heap_avail (f : Z → Z) (w : world) : world :=
  {| movers := movers w; membufs := membufs w; slots := slots w;
     maps := maps w; heap_avail := f (heap_avail w); junk := junk w;
     errno := errno w; trace := trace w |}.

Definition set_errno (e : Z) (w : world) : world :=
  {| movers := movers w; membufs := membufs w; slots := slots w;
     maps := maps w; heap_avail := heap_avail w; junk := junk w;
     errno := e; trace := trace w |}.

Definition emit (e : event) (w : world) : world :=
  {| movers := movers w; membufs := membufs w; slots := slots w;
     maps := maps w; heap_avail := heap_avail w; junk := junk w;
     errno := errno w; trace := trace w ++ [e] |}.

(** The addresses in use; an allocation returns an address outside of it. *)
Definition live (w : world) : gset Z :=
  {[ NULL ]} ∪ dom (movers w) ∪ dom (membufs w) ∪ dom (slots w) ∪ dom (maps w).

(** The flag of the operation at [data], when the slot is live. *)
Definition complete_flag (w : world) (data : ptr) : option Z :=
  (dmo_complete ∘ slot_val) <$> slots w !! data.

(** The state [sync_operation_check] reports for a flag value. *)
Definition state_of_flag (complete : Z) : future_state :=
  if decide (complete = 0) then FUTURE_STATE_IDLE else FUTURE_STATE_COMPLETE.

(** ** The monad *)

(** A call returns a value in a new world, aborts the process (FATAL) or has
    undefined behaviour. *)
Inductive outcome (A : Type) :=
  | Ret (a : A) (w : world)
  | Fatal (msg : string) (w : world)
  | Undefined.
Arguments Ret {A} a w.
Arguments Fatal {A} msg w.
Arguments Undefined {A}.

Definition M (A : Type) : Type := world → outcome A.

#[global] Instance M_ret : MRet M := λ A a w, Ret a w.
#[global] Instance M_bind : MBind M := λ A B f m w,
  match m w with
  | Ret a w' => f a w'
  | Fatal msg w' => Fatal msg w'
  | Undefined => Undefined
  end.

Definition get {A} (f : world → A) : M A := λ w, Ret (f w) w.
Definition modify (f : world → world) : M unit := λ w, Ret tt (f w).
Definition undefined {A} : M A := λ _, Undefined.
Definition deref {A} (o : option A) : M A :=
  match o with Some a => mret a | None => undefined end.

(** Modelled from the spec: the FATAL macro of out.h is not under src/; a
    fatal contract violation aborts the process and no recovery is
    attempted. *)
Definition FATAL {A} (msg : string) : M A := λ w, Fatal msg w.

(** What the headers outside of this file fix: constants, the errno macro
    and object sizes. *)
Class Platform := {
  PMEM2_F_MEM_NONTEMPORAL : Z;   (* libpmem2.h: the non-temporal store hint *)
  PMEM2_E_ERRNO : Z → Z;         (* pmem2_utils.h: the error code for an errno *)
  ENOMEM : Z;                    (* errno.h *)
  sizeof_data_mover : Z;         (* sizeof(struct data_mover) *)
  sizeof_data_mover_op : Z;      (* sizeof(struct data_mover_op) *)
  sizeof_membuf : Z              (* sizeof(struct membuf) *)
}.

(** ** Memory accesses *)

Definition load_mover (p : ptr) : M data_mover :=
  w ← get movers; deref (w !! p).

Definition load_map (p : ptr) : M pmem2_map :=
  w ← get maps; deref (w !! p).

Definition load_slot (p : ptr) : M slot :=
  w ← get slots; deref (w !! p).

Definition load_membuf (p : ptr) : M membuf :=
  w ← get membufs; deref (w !! p).

(** A store to a field of the [struct data_mover] at [p]. *)
Definition store_mover (p : ptr) (f : data_mover → data_mover) : M unit :=
  dm ← load_mover p; modify (set_movers <[p := f dm]>).

(** The 32-bit objects the file accesses by address:
    [&sync_op->complete]. *)
Inductive lval32 :=
  | complete_of (sync_op : ptr).

Definition load32 (l : lval32) : M Z :=
  match l with
  | complete_of p => s ← load_slot p; mret (dmo_complete (slot_val s))
  end.

(** The slot [s] with [v] written to its [complete] field. *)
Definition with_complete (v : Z) (s : slot) : slot :=
  {| slot_membuf := slot_membuf s;
     slot_size := slot_size s;
     slot_val := {| dmo_op := dmo_op (slot_val s); dmo_complete := v |} |}.

Definition store32 (l : lval32) (v : Z) : M unit :=
  match l with
  | complete_of p =>
      s ← load_slot p;
      modify (set_slots <[p := with_complete v s]>)
  end.

(** Modelled from the spec: the macros [util_atomic_load_explicit32] and
    [util_atomic_store_explicit32] (util.h) are not under src/.  They load
    and store the completion flag atomically with the given ordering; the
    ordering is recorded with the access. *)
Definition util_atomic_load_explicit32 (l : lval32) (mo : memory_order) : M Z :=
  match l with
  | complete_of p =>
      v ← load32 l; modify (emit (EvAtomicLoad32 p v mo));; mret v
  end.

Definition util_atomic_store_explicit32 (l : lval32) (v : Z) (mo : memory_order) : M unit :=
  match l with
  | complete_of p =>
      store32 l v;; modify (emit (EvAtomicStore32 p v mo))
  end.

(** Modelled from the spec: [pmem2_get_memcpy_fn] and
    [pmem2_get_memmove_fn] (map.c) are not under src/.  The region exposes
    its durable-copy and its durable-move function as two opaque function
    pointers obtained from the map object. *)
Definition pmem2_get_memcpy_fn (map : ptr) : M Z :=
  m ← load_map map; mret (map_memcpy_fn m).

Definition pmem2_get_memmove_fn (map : ptr) : M Z :=
  m ← load_map map; mret (map_memmove_fn m).

(** A call through one of these pointers leaves the file. *)
Definition call_mem_fn (fn : Z) (dest src : ptr) (n : Z) (flags : Z) : M unit :=
  modify (emit (EvMemFn fn dest src n flags)).

Section Mover.
Context `{Platform}.

(** ** The heap and the operation allocator *)

(** The contents of memory that was allocated and not written yet. *)
Definition indeterminate_op (j : Z) : data_mover_op :=
  {| dmo_op := {| op_type := VDM_OPERATION_other j; data_dest := j;
                  data_src := j; data_n := j; data_flags := j |};
     dmo_complete := j |}.

Definition indeterminate_mover (j : Z) : data_mover :=
  {| dm_base := {| op_new := fn_indeterminate j; op_delete := fn_indeterminate j;
                   op_check := fn_indeterminate j; op_start := fn_indeterminate j |};
     dm_map := j; dm_membuf := j |}.

(** Modelled from the spec: [pmem2_malloc] (pmem2_utils.c) is not under
    src/.  A backing allocation that fails is a recoverable allocation
    failure returned to the caller together with the underlying system
    error; one that succeeds yields a new object, here the
    [struct data_mover] the file asks for, with indeterminate contents.
    The result is the pointer and the value left in [*err]. *)
Definition pmem2_malloc (size : Z) : M (Z * Z) :=
  avail ← get heap_avail;
  if decide (size ≤ avail) then
    p ← get (λ w, fresh (live w));
    j ← get junk;
    modify (set_movers <[p := indeterminate_mover j]>);;
    modify (set_heap_avail (λ a, a - size));;
    mret (p, 0)
  else
    modify (set_errno ENOMEM);;
    e ← get errno;
    mret (NULL, PMEM2_E_ERRNO e).

(** [free] of the C library, for the one type of object the file frees:
    a no-op on the null pointer, undefined on a pointer that is not live. *)
Definition free (p : ptr) : M unit :=
  if decide (p = NULL) then mret tt
  else
    _ ← load_mover p;
    modify (set_movers (delete p));;
    modify (set_heap_avail (λ a, a + sizeof_data_mover)).

(** Modelled from the spec: [membuf_new] (membuf.c) is not under src/.
    create(owner) builds an arena bound to [owner]; a failure of its setup is
    a system error, a null result with errno set. *)
Definition membuf_new (user_data : ptr) : M Z :=
  avail ← get heap_avail;
  if decide (sizeof_membuf ≤ avail) then
    mb ← get (λ w, fresh (live w));
    modify (set_membufs <[mb := {| mb_user_data := user_data |}]>);;
    modify (set_heap_avail (λ a, a - sizeof_membuf));;
    mret mb
  else
    modify (set_errno ENOMEM);;
    mret NULL.

(** A slot as it is handed out: of allocator [mb], [size] bytes, not
    written yet. *)
Definition fresh_slot (mb : ptr) (size : Z) (w : world) : slot :=
  {| slot_membuf := mb; slot_size := size; slot_val := indeterminate_op (junk w) |}.

(** Modelled from the spec: [membuf_alloc] (membuf.c) is not under src/.
    alloc(size) returns a slot of [size] bytes that can be mapped back to
    the owner of its arena, or a failure when the arena is exhausted; the
    arena grows as needed, bounded by the available backing memory.  The
    slot's contents are not initialised. *)
Definition membuf_alloc (mb : ptr) (size : Z) : M Z :=
  _ ← load_membuf mb;
  avail ← get heap_avail;
  if decide (size ≤ avail) then
    p ← get (λ w, fresh (live w));
    modify (λ w, set_slots <[p := fresh_slot mb size w]> w);;
    modify (set_heap_avail (λ a, a - size));;
    mret p
  else mret NULL.

(** Modelled from the spec: [membuf_free] (membuf.c) is not under src/.
    free(slot) returns a previously allocated slot to the arena; freeing an
    address that is not an allocated slot is undefined. *)
Definition membuf_free (p : ptr) : M unit :=
  s ← load_slot p;
  modify (set_slots (delete p));;
  modify (set_heap_avail (λ a, a + slot_size s)).

(** Modelled from the spec: [membuf_ptr_user_data] (membuf.c) is not under
    src/.  owner_of(slot) derives the owner of the arena from a slot. *)
Definition membuf_ptr_user_data (p : ptr) : M Z :=
  s ← load_slot p;
  mb ← load_membuf (slot_membuf s);
  mret (mb_user_data mb).

(** Modelled from the spec: [membuf_delete] (membuf.c) is not under src/.
    destroy(allocator) releases all backing memory; calling it while a slot
    is still allocated is a contract violation. *)
Definition membuf_delete (mb : ptr) : M unit :=
  _ ← load_membuf mb;
  sl ← get slots;
  if decide (map_Forall (λ _ s, slot_membuf s ≠ mb) sl) then
    modify (set_membufs (delete mb));;
    modify (set_heap_avail (λ a, a + sizeof_membuf))
  else undefined.

(** ** The callbacks of the synchronous mover *)

(** [sync_operation_check]: COMPLETE when the flag reads non-zero. *)
Definition sync_operation_check (data : ptr) (operation : vdm_operation) : M future_state :=
  let sync_op := data in
  complete ← util_atomic_load_explicit32 (complete_of sync_op) memory_order_acquire;
  mret (if decide (complete = 0) then FUTURE_STATE_IDLE else FUTURE_STATE_COMPLETE).

(** [sync_operation_new]: [type] is unused. *)
Definition sync_operation_new (vdm : ptr) (type : vdm_operation_type) : M Z :=
  let vdm_sync := vdm in
  dm ← load_mover vdm_sync;
  sync_op ← membuf_alloc (dm_membuf dm) sizeof_data_mover_op;
  if decide (sync_op = NULL) then mret NULL
  else
    store32 (complete_of sync_op) 0;;
    mret sync_op.

(** [sync_operation_delete]: [output] is the object the third argument
    points to; the result is that object when the call returns. *)
Definition sync_operation_delete (data : ptr) (operation : vdm_operation)
    (output : vdm_operation_output) : M vdm_operation_output :=
  let output := {| out_type := out_type output; out_result := VDM_SUCCESS;
                   out_dest := out_dest output |} in
  output ←
    match op_type operation with
    | VDM_OPERATION_MEMCPY =>
        mret {| out_type := VDM_OPERATION_MEMCPY; out_result := out_result output;
                out_dest := data_dest operation |}
    | VDM_OPERATION_MEMMOVE =>
        mret {| out_type := VDM_OPERATION_MEMMOVE; out_result := out_result output;
                out_dest := data_dest operation |}
    | VDM_OPERATION_other _ => FATAL "unsupported operation type"
    end;
  membuf_free data;;
  mret output.

(** [sync_operation_start]: [n] is the notifier the third argument points
    to, [None] for a null pointer; the result is the returned int and the
    notifier when the call returns. *)
Definition sync_operation_start (data : ptr) (operation : vdm_operation)
    (n : option future_notifier) : M (Z * option future_notifier) :=
  let sync_data := data in
  mover ← membuf_ptr_user_data data;
  let n := match n with
           | Some _ => Some {| notifier_used := FUTURE_NOTIFIER_NONE |}
           | None => None
           end in
  match op_type operation with
  | VDM_OPERATION_MEMCPY =>
      dm ← load_mover mover;
      memcpy_fn ← pmem2_get_memcpy_fn (dm_map dm);
      call_mem_fn memcpy_fn (data_dest operation) (data_src operation)
        (data_n operation) PMEM2_F_MEM_NONTEMPORAL
  | VDM_OPERATION_MEMMOVE =>
      dm ← load_mover mover;
      memmove_fn ← pmem2_get_memmove_fn (dm_map dm);
      call_mem_fn memmove_fn (data_dest operation) (data_src operation)
        (data_n operation) PMEM2_F_MEM_NONTEMPORAL
  | VDM_OPERATION_other _ => FATAL "unsupported operation type"
  end;;
  util_atomic_store_explicit32 (complete_of sync_data) 1 memory_order_release;;
  mret (0, n).

Definition data_mover_vdm : vdm :=
  {| op_new := fn_sync_operation_new;
     op_delete := fn_sync_operation_delete;
     op_check := fn_sync_operation_check;
     op_start := fn_sync_operation_start |}.

(** ** Lifecycle and entry points *)

(** [mover_new]: [vdm] is the object the second argument points to; the
    result is the returned int and that object when the call returns. *)
Definition mover_new (map : ptr) (vdm : ptr) : M (Z * Z) :=
  '(dms, ret) ← pmem2_malloc sizeof_data_mover;
  if decide (dms = NULL) then mret (ret, vdm)
  else
    store_mover dms (λ dm, {| dm_base := data_mover_vdm; dm_map := dm_map dm;
                              dm_membuf := dm_membuf dm |});;
    store_mover dms (λ dm, {| dm_base := dm_base dm; dm_map := map;
                              dm_membuf := dm_membuf dm |});;
    let vdm := dms in
    mb ← membuf_new dms;
    store_mover dms (λ dm, {| dm_base := dm_base dm; dm_map := dm_map dm;
                              dm_membuf := mb |});;
    if decide (mb = NULL) then
      ret ← get (λ w, PMEM2_E_ERRNO (errno w));
      free dms;;
      mret (ret, vdm)
    else mret (0, vdm).

(** [mover_delete]. *)
Definition mover_delete (dms : ptr) : M unit :=
  dm ← load_mover dms;
  membuf_delete (dm_membuf dm);;
  free dms.

(** A call through [vdm->op_new]. *)
Definition call_op_new (f : callback) (vdm : ptr) (type : vdm_operation_type) : M Z :=
  match f with
  | fn_sync_operation_new => sync_operation_new vdm type
  | _ => undefined
  end.

(** [struct vdm_operation_future]: the mover, the operation handle, the
    operation and the state of the future. *)
Record vdm_operation_future := {
  fut_vdm : ptr;
  fut_data : ptr;
  fut_operation : vdm_operation;
  fut_state : future_state
}.

(** Modelled from the spec: [vdm_memcpy] (the operation future protocol,
    vdm.h) is not under src/.  A request for a copy pulls a block from the
    operation allocator through the mover's op_new and wraps the returned
    handle into a future value, which references the mover and the
    operation (kind, dest, src, length) and starts in state Idle. *)
Definition vdm_memcpy (vdm : ptr) (dest src : ptr) (n : Z) (flags : Z) : M vdm_operation_future :=
  dm ← load_mover vdm;
  data ← call_op_new (op_new (dm_base dm)) vdm VDM_OPERATION_MEMCPY;
  mret {| fut_vdm := vdm; fut_data := data;
          fut_operation := {| op_type := VDM_OPERATION_MEMCPY; data_dest := dest;
                              data_src := src; data_n := n; data_flags := flags |};
          fut_state := FUTURE_STATE_IDLE |}.

(** [pmem2_memcpy_async]: [flags] is unused. *)
Definition pmem2_memcpy_async (map : ptr) (pmemdest src : ptr) (len : Z) (flags : Z)
    : M vdm_operation_future :=
  m ← load_map map;
  vdm_memcpy (map_vdm m) pmemdest src len 0.

End Mover.

(** The world in the middle of [mover_new]: the new object at [dms] has its
    [base] and [map] written, its [membuf] not yet. *)
Definition mover_bound (dms map : ptr) (w : world) : world :=
  set_movers <[dms := {| dm_base := data_mover_vdm; dm_map := map;
                         dm_membuf := junk w |}]> w.

(** ** The public interface of the file *)

(** The functions of the file with external linkage, with their
    arguments. *)
Inductive api_call :=
  | call_mover_new (map : ptr) (vdm : ptr)
  | call_mover_delete (dms : ptr)
  | call_pmem2_memcpy_async (map : ptr) (pmemdest src : ptr) (len : Z) (flags : Z).

Inductive api_result :=
  | res_int (ret : Z) (vdm : ptr)
  | res_void
  | res_future (fut : vdm_operation_future).

Definition api_run `{Platform} (c : api_call) : M api_result :=
  match c with
  | call_mover_new map vdm =>
      '(ret, vdm) ← mover_new map vdm; mret (res_int ret vdm)
  | call_mover_delete dms =>
      mover_delete dms;; mret res_void
  | call_pmem2_memcpy_async map pmemdest src len flags =>
      fut ← pmem2_memcpy_async map pmemdest src len flags; mret (res_future fut)
  end.

(** A single-threaded driver that polls [k] times. *)
Fixpoint poll `{Platform} (k : nat) (data : ptr) (operation : vdm_operation) : M (list future_state) :=
  match k with
  | O => mret []
  | S k' =>
      st ← sync_operation_check data operation;
      rest ← poll k' data operation;
      mret (st :: rest)
  end.

(** ** A platform and a world to run the model on *)

Definition example_platform : Platform :=
  {| PMEM2_F_MEM_NONTEMPORAL := 2;
     PMEM2_E_ERRNO := λ e, - e;
     ENOMEM := 12;
     sizeof_data_mover := 48;
     sizeof_data_mover_op := 48;
     sizeof_membuf := 64 |}.

(** A region at 4096 whose mover at 16 owns the allocator at 64; no
    operation is in flight. *)
Definition example_world : world :=
  {| movers := {[ 16 := {| dm_base := data_mover_vdm; dm_map := 4096; dm_membuf := 64 |} ]};
     membufs := {[ 64 := {| mb_user_data := 16 |} ]};
     slots := ∅;
     maps := {[ 4096 := {| map_memcpy_fn := 1001; map_memmove_fn := 1002; map_vdm := 16 |} ]};
     heap_avail := 100;
     junk := 165;
     errno := 0;
     trace := [] |}.

(** A region at 4096 without a mover yet. *)
Definition bare_world (avail : Z) : world :=
  {| movers := ∅;
     membufs := ∅;
     slots := ∅;
     maps := {[ 4096 := {| map_memcpy_fn := 1001; map_memmove_fn := 1002; map_vdm := NULL |} ]};
     heap_avail := avail;
     junk := 165;
     errno := 0;
     trace := [] |}.

(** The same with one operation in flight, as [sync_operation_new] leaves
    it. *)
Definition inflight_world : world :=
  {| movers := movers example_world;
     membufs := membufs example_world;
     slots := {[ 4097 := with_complete 0
                   {| slot_membuf := 64; slot_size := 48;
                      slot_val := indeterminate_op 165 |} ]};
     maps := maps example_world;
     heap_avail := 52;
     junk := 165;
     errno := 0;
     trace := [] |}.

(** The first world after the allocator handed out a slot that was not
    written yet. *)
Definition allocated_world : world :=
  {| movers := movers example_world;
     membufs := membufs example_world;
     slots := {[ 4097 := {| slot_membuf := 64; slot_size := 48;
                            slot_val := indeterminate_op 165 |} ]};
     maps := maps example_world;
     heap_avail := 52;
     junk := 165;
     errno := 0;
     trace := [] |}.

(** The same after the operation was started as a copy. *)
Definition started_world : world :=
  {| movers := movers example_world;
     membufs := membufs example_world;
     slots := {[ 4097 := with_complete 1
                   {| slot_membuf := 64; slot_size := 48;
                      slot_val := indeterminate_op 165 |} ]};
     maps := maps example_world;
     heap_avail := 52;
     junk := 165;
     errno := 0;
     trace := [EvMemFn 1001 8192 12288 4096 2;
               EvAtomicStore32 4097 1 memory_order_release] |}.

(** The first world with too little memory left for an operation slot. *)
Definition exhausted_world : world :=
  {| movers := movers example_world;
     membufs := membufs example_world;
     slots := ∅;
     maps := maps example_world;
     heap_avail := 10;
     junk := 165;
     errno := 0;
     trace := [] |}.

(** The region without a mover after the allocation of a
    [struct data_mover]. *)
Definition malloced_world (avail : Z) : world :=
  {| movers := {[ 4097 := indeterminate_mover 165 ]};
     membufs := ∅;
     slots := ∅;
     maps := maps (bare_world avail);
     heap_avail := avail - 48;
     junk := 165;
     errno := 0;
     trace := [] |}.

Definition copy_op : vdm_operation :=
  {| op_type := VDM_OPERATION_MEMCPY; data_dest := 8192; data_src := 12288;
     data_n := 4096; data_flags := 0 |}.

Definition move_op : vdm_operation :=
  {| op_type := VDM_OPERATION_MEMMOVE; data_dest := 8192; data_src := 8200;
     data_n := 64; data_flags := 0 |}.

Definition other_op : vdm_operation :=
  {| op_type := VDM_OPERATION_other 2; data_dest := 8192; data_src := 8200;
     data_n := 64; data_flags := 0 |}.

Definition stale_output : vdm_operation_output :=
  {| out_type := VDM_OPERATION_other 7; out_result := VDM_ERROR 1; out_dest := NULL |}.

(** ** Conditions on a world *)

(** Every live slot was handed out by an allocator that is still live. *)
Definition slots_owned (w : world) : Prop :=
  map_Forall (λ _ s, is_Some (membufs w !! slot_membuf s)) (slots w).

(** The mover at [vdm] is in working order: its allocator [mb] is live and
    was created with the mover as user data, and its region [m] is
    mapped. *)
Definition mover_ready (w : world) (vdm : ptr) (dm : data_mover) (mb : membuf)
    (m : pmem2_map) : Prop :=
  movers w !! vdm = Some dm ∧
  membufs w !! dm_membuf dm = Some mb ∧
  mb_user_data mb = vdm ∧
  maps w !! dm_map dm = Some m.

(** The function of the region [sync_operation_start] calls for a kind it
    supports. *)
Definition durable_fn (m : pmem2_map) (type : vdm_operation_type) : Z :=
  match type with
  | VDM_OPERATION_MEMMOVE => map_memmove_fn m
  | _ => map_memcpy_fn m
  end.

(** The world in which [mover_new] calls [membuf_new]: the new object is
    allocated at a fresh address and bound to the vtable and the region. *)
Definition mover_new_bound `{Platform} (map : ptr) (w : world) : world :=
  mover_bound (fresh (live w)) map
    (set_heap_avail (λ a, a - sizeof_data_mover)
       (set_movers <[fresh (live w) := indeterminate_mover (junk w)]> w)).

(** The world [mover_new] leaves when both of its allocations succeed. *)
Definition mover_created `{Platform} (map : ptr) (w : world) : world :=
  let dms := fresh (live w) in
  let mb := fresh (live (mover_new_bound map w)) in
  set_movers <[dms := {| dm_base := data_mover_vdm; dm_map := map; dm_membuf := mb |}]>
    (set_heap_avail (λ a, a - sizeof_membuf)
       (set_membufs <[mb := {| mb_user_data := dms |}]> (mover_new_bound map w))).

(** The calls a driver can make on a mover and its handles while an
    operation is in flight; results are dropped. *)
Inductive driver_step :=
  | step_new (vdm : ptr) (type : vdm_operation_type)
  | step_start (data : ptr) (operation : vdm_operation) (n : option future_notifier)
  | step_check (data : ptr) (operation : vdm_operation).

Fixpoint drive `{Platform} (steps : list driver_step) : M unit :=
  match steps with
  | [] => mret tt
  | step_new vdm type :: rest => sync_operation_new vdm type;; drive rest
  | step_start data operation n :: rest =>
      sync_operation_start data operation n;; drive rest
  | step_check data operation :: rest =>
      sync_operation_check data operation;; drive rest
  end.

(** The first world after its mover was deleted. *)
Definition deleted_world : world :=
  {| movers := ∅;
     membufs := ∅;
     slots := ∅;
     maps := maps example_world;
     heap_avail := 212;
     junk := 165;
     errno := 0;
     trace := [] |}.

(** * Properties *)

Section Properties.
Context `{Platform}.

(** ** Running the monad *)

Lemma bind_Ret {A B} (m : M A) (f : A → M B) w a w' :
  m w = Ret a w' → (m ≫= f) w = f a w'.
Proof. intros Hm. unfold mbind, M_bind. by rewrite Hm. Qed.

Lemma bind_Fatal {A B} (m : M A) (f : A → M B) w msg w' :
  m w = Fatal msg w' → (m ≫= f) w = Fatal msg w'.
Proof. intros Hm. unfold mbind, M_bind. by rewrite Hm. Qed.

Lemma bind_inv {A B} (m : M A) (f : A → M B) w b w' :
  (m ≫= f) w = Ret b w' → ∃ a w1, m w = Ret a w1 ∧ f a w1 = Ret b w'.
Proof.
  unfold mbind, M_bind. destruct (m w) as [a w1| |]; [eauto | done | done].
Qed.

Ltac munfold :=
  unfold mbind, M_bind, mret, M_ret, get, modify, deref, undefined, FATAL in *.

(** ** Memory accesses *)

Lemma load_slot_live w p s :
  slots w !! p = Some s → load_slot p w = Ret s w.
Proof. intros Hs. unfold load_slot. munfold. by rewrite Hs. Qed.

Lemma load_mover_live w p dm :
  movers w !! p = Some dm → load_mover p w = Ret dm w.
Proof. intros Hs. unfold load_mover. munfold. by rewrite Hs. Qed.

Lemma load_map_live w p m :
  maps w !! p = Some m → load_map p w = Ret m w.
Proof. intros Hs. unfold load_map. munfold. by rewrite Hs. Qed.

Lemma load_membuf_live w p mb :
  membufs w !! p = Some mb → load_membuf p w = Ret mb w.
Proof. intros Hs. unfold load_membuf. munfold. by rewrite Hs. Qed.

Lemma load_slot_inv w p s w' :
  load_slot p w = Ret s w' → slots w !! p = Some s ∧ w' = w.
Proof.
  unfold load_slot. munfold. destruct (slots w !! p); [|done].
  by intros [= -> ->].
Qed.

Lemma load_mover_inv w p dm w' :
  load_mover p w = Ret dm w' → movers w !! p = Some dm ∧ w' = w.
Proof.
  unfold load_mover. munfold. destruct (movers w !! p); [|done].
  by intros [= -> ->].
Qed.

Lemma load_map_inv w p m w' :
  load_map p w = Ret m w' → maps w !! p = Some m ∧ w' = w.
Proof.
  unfold load_map. munfold. destruct (maps w !! p); [|done].
  by intros [= -> ->].
Qed.

Lemma load_membuf_inv w p mb w' :
  load_membuf p w = Ret mb w' → membufs w !! p = Some mb ∧ w' = w.
Proof.
  unfold load_membuf. munfold. destruct (membufs w !! p); [|done].
  by intros [= -> ->].
Qed.

Lemma store32_live w p v s :
  slots w !! p = Some s →
  store32 (complete_of p) v w = Ret tt (set_slots <[p := with_complete v s]> w).
Proof.
  intros Hs. unfold store32. by rewrite (bind_Ret _ _ _ _ _ (load_slot_live _ _ _ Hs)).
Qed.

Lemma membuf_ptr_user_data_live w p s mb :
  slots w !! p = Some s → membufs w !! slot_membuf s = Some mb →
  membuf_ptr_user_data p w = Ret (mb_user_data mb) w.
Proof.
  intros Hs Hmb. unfold membuf_ptr_user_data.
  rewrite (bind_Ret _ _ _ _ _ (load_slot_live _ _ _ Hs)).
  by rewrite (bind_Ret _ _ _ _ _ (load_membuf_live _ _ _ Hmb)).
Qed.

(** The durable write of [sync_operation_start] followed by the release
    store, for the function pointer [fn] of the mover's region. *)
Lemma sync_operation_start_run w data operation n s mb dm m fn :
  slots w !! data = Some s →
  membufs w !! slot_membuf s = Some mb →
  movers w !! mb_user_data mb = Some dm →
  maps w !! dm_map dm = Some m →
  (op_type operation = VDM_OPERATION_MEMCPY ∧ fn = map_memcpy_fn m) ∨
  (op_type operation = VDM_OPERATION_MEMMOVE ∧ fn = map_memmove_fn m) →
  sync_operation_start data operation n w =
    Ret (0, (λ _, {| notifier_used := FUTURE_NOTIFIER_NONE |}) <$> n)
        (emit (EvAtomicStore32 data 1 memory_order_release)
           (set_slots <[data := with_complete 1 s]>
              (emit (EvMemFn fn (data_dest operation) (data_src operation)
                       (data_n operation) PMEM2_F_MEM_NONTEMPORAL) w))).
Proof.
  intros Hs Hmb Hdm Hm Hkind. unfold sync_operation_start.
  rewrite (bind_Ret _ _ _ _ _ (membuf_ptr_user_data_live _ _ _ _ Hs Hmb)).
  destruct Hkind as [[-> ->] | [-> ->]].
  - unfold pmem2_get_memcpy_fn, call_mem_fn, util_atomic_store_explicit32.
    unfold store32, load_slot, load_mover, load_map. munfold. simpl.
    rewrite Hdm. simpl. rewrite Hm. simpl. rewrite Hs. simpl.
    by destruct n.
  - unfold pmem2_get_memmove_fn, call_mem_fn, util_atomic_store_explicit32.
    unfold store32, load_slot, load_mover, load_map. munfold. simpl.
    rewrite Hdm. simpl. rewrite Hm. simpl. rewrite Hs. simpl.
    by destruct n.
Qed.

(** C1: for a live operation handle whose mover is bound to the region [m],
    [sync_operation_start] on a copy calls the region's memcpy function, and
    on a move the region's memmove function, with the operation's
    destination, source and length and PMEM2_F_MEM_NONTEMPORAL; the call is
    followed by the store of 1 to the operation's [complete] flag with
    release ordering, and the function returns with the flag set. *)
Theorem sync_operation_start_dispatch w data operation n s mb dm m :
  slots w !! data = Some s →
  membufs w !! slot_membuf s = Some mb →
  movers w !! mb_user_data mb = Some dm →
  maps w !! dm_map dm = Some m →
  (op_type operation = VDM_OPERATION_MEMCPY →
   ∃ r w', sync_operation_start data operation n w = Ret r w' ∧
     trace w' = trace w ++
       [EvMemFn (map_memcpy_fn m) (data_dest operation) (data_src operation)
          (data_n operation) PMEM2_F_MEM_NONTEMPORAL;
        EvAtomicStore32 data 1 memory_order_release] ∧
     complete_flag w' data = Some 1) ∧
  (op_type operation = VDM_OPERATION_MEMMOVE →
   ∃ r w', sync_operation_start data operation n w = Ret r w' ∧
     trace w' = trace w ++
       [EvMemFn (map_memmove_fn m) (data_dest operation) (data_src operation)
          (data_n operation) PMEM2_F_MEM_NONTEMPORAL;
        EvAtomicStore32 data 1 memory_order_release] ∧
     complete_flag w' data = Some 1).
Proof.
  intros Hs Hmb Hdm Hm. split; intros Hkind.
  - eexists _, _. split.
    + eapply sync_operation_start_run; eauto.
    + split.
      * simpl. by rewrite <- app_assoc.
      * unfold complete_flag. simpl. by rewrite lookup_insert_eq.
  - eexists _, _. split.
    + eapply sync_operation_start_run; eauto.
    + split.
      * simpl. by rewrite <- app_assoc.
      * unfold complete_flag. simpl. by rewrite lookup_insert_eq.
Qed.

(** C8: for a live operation handle and a copy or move operation,
    [sync_operation_start] returns 0 and leaves FUTURE_NOTIFIER_NONE in the
    notifier it was given; with a null notifier pointer it returns 0 and
    there is nothing to report through. *)
Theorem sync_operation_start_notifier w data operation s mb dm m :
  slots w !! data = Some s →
  membufs w !! slot_membuf s = Some mb →
  movers w !! mb_user_data mb = Some dm →
  maps w !! dm_map dm = Some m →
  op_type operation = VDM_OPERATION_MEMCPY ∨
  op_type operation = VDM_OPERATION_MEMMOVE →
  (∀ n : future_notifier, ∃ n' w',
     sync_operation_start data operation (Some n) w = Ret (0, Some n') w' ∧
     notifier_used n' = FUTURE_NOTIFIER_NONE) ∧
  (∃ w', sync_operation_start data operation None w = Ret (0, None) w').
Proof.
  intros Hs Hmb Hdm Hm Hkind.
  assert (∃ fn,
    (op_type operation = VDM_OPERATION_MEMCPY ∧ fn = map_memcpy_fn m) ∨
    (op_type operation = VDM_OPERATION_MEMMOVE ∧ fn = map_memmove_fn m))
    as [fn Hfn] by (destruct Hkind; eauto).
  split.
  - intros n. eexists _, _. split.
    + by apply (sync_operation_start_run w data operation (Some n) s mb dm m fn).
    + done.
  - eexists.
    by apply (sync_operation_start_run w data operation None s mb dm m fn).
Qed.

(** An operation kind outside of copy and move reaches FATAL in
    [sync_operation_start], before any call or store. *)
Lemma sync_operation_start_unsupported w data operation n s mb tag :
  slots w !! data = Some s →
  membufs w !! slot_membuf s = Some mb →
  op_type operation = VDM_OPERATION_other tag →
  sync_operation_start data operation n w = Fatal "unsupported operation type" w.
Proof.
  intros Hs Hmb Hkind. unfold sync_operation_start.
  rewrite (bind_Ret _ _ _ _ _ (membuf_ptr_user_data_live _ _ _ _ Hs Hmb)).
  rewrite Hkind. by munfold.
Qed.

(** The same in [sync_operation_delete], before the slot is released. *)
Lemma sync_operation_delete_unsupported w data operation output tag :
  op_type operation = VDM_OPERATION_other tag →
  sync_operation_delete data operation output w =
    Fatal "unsupported operation type" w.
Proof.
  intros Hkind. unfold sync_operation_delete. rewrite Hkind. by munfold.
Qed.

(** C7: for an operation whose kind is neither copy nor move,
    [sync_operation_start] (on a live handle) and [sync_operation_delete]
    abort the process with the message of the FATAL call, in the world they
    were called in; neither of them returns. *)
Theorem unsupported_kind_is_fatal w data operation n output s mb :
  slots w !! data = Some s →
  membufs w !! slot_membuf s = Some mb →
  op_type operation ≠ VDM_OPERATION_MEMCPY →
  op_type operation ≠ VDM_OPERATION_MEMMOVE →
  (sync_operation_start data operation n w =
     Fatal "unsupported operation type" w ∧
   sync_operation_delete data operation output w =
     Fatal "unsupported operation type" w) ∧
  (∀ r w', sync_operation_start data operation n w ≠ Ret r w') ∧
  (∀ out w', sync_operation_delete data operation output w ≠ Ret out w').
Proof.
  intros Hs Hmb Hcpy Hmov.
  destruct (op_type operation) as [| |tag] eqn:Hkind; [done | done |].
  pose proof (sync_operation_start_unsupported w data operation n s mb tag
                Hs Hmb Hkind) as Hstart.
  pose proof (sync_operation_delete_unsupported w data operation output tag
                Hkind) as Hdel.
  repeat split; try done.
  - intros r w'. by rewrite Hstart.
  - intros out w'. by rewrite Hdel.
Qed.

(** C3: for a live operation handle and a copy or move operation,
    [sync_operation_delete] returns an output whose type is the operation's
    type, whose result is VDM_SUCCESS and whose destination is the
    operation's destination, whatever the output object held before; the
    slot is no longer live afterwards and its bytes are back with the
    allocator's backing memory. *)
Theorem sync_operation_delete_output w data operation output s :
  slots w !! data = Some s →
  op_type operation = VDM_OPERATION_MEMCPY ∨
  op_type operation = VDM_OPERATION_MEMMOVE →
  ∃ out w',
    sync_operation_delete data operation output w = Ret out w' ∧
    out_type out = op_type operation ∧
    out_result out = VDM_SUCCESS ∧
    out_dest out = data_dest operation ∧
    slots w' = delete data (slots w) ∧
    slots w' !! data = None ∧
    heap_avail w' = heap_avail w + slot_size s.
Proof.
  intros Hs Hkind. unfold sync_operation_delete, membuf_free, load_slot.
  destruct Hkind as [-> | ->]; munfold; simpl; rewrite Hs; simpl;
    eexists _, _; (split; [reflexivity|]); simpl;
    repeat split; by rewrite ?lookup_delete_eq.
Qed.

(** ** The allocator *)

Lemma fresh_live w :
  fresh (live w) ≠ NULL ∧
  movers w !! fresh (live w) = None ∧
  membufs w !! fresh (live w) = None ∧
  slots w !! fresh (live w) = None ∧
  maps w !! fresh (live w) = None.
Proof.
  pose proof (is_fresh (live w)) as Hfresh. unfold live in Hfresh.
  rewrite !not_elem_of_union, !not_elem_of_dom, not_elem_of_singleton in Hfresh.
  tauto.
Qed.

Lemma membuf_alloc_inv mb size w p w1 :
  membuf_alloc mb size w = Ret p w1 →
  is_Some (membufs w !! mb) ∧
  ((p = NULL ∧ w1 = w) ∨
   (p ≠ NULL ∧ slots w !! p = None ∧
    w1 = set_heap_avail (λ a, a - size)
           (set_slots <[p := fresh_slot mb size w]> w))).
Proof.
  unfold membuf_alloc, load_membuf. munfold. simpl.
  destruct (membufs w !! mb) as [mbr|] eqn:Hmb; [|done]. simpl.
  destruct (decide (size ≤ heap_avail w)); simpl.
  - intros [= <- <-]. split; [eauto|]. right.
    destruct (fresh_live w) as (Hnull & _ & _ & Hslot & _). done.
  - intros [= <- <-]. split; [eauto|]. by left.
Qed.

Lemma sync_operation_new_run vdm type w dm p w1 :
  movers w !! vdm = Some dm →
  membuf_alloc (dm_membuf dm) sizeof_data_mover_op w = Ret p w1 →
  (p = NULL ∧ sync_operation_new vdm type w = Ret NULL w1) ∨
  (p ≠ NULL ∧ ∃ s,
     slots w1 !! p = Some s ∧
     sync_operation_new vdm type w =
       Ret p (set_slots <[p := with_complete 0 s]> w1)).
Proof.
  intros Hdm Halloc. unfold sync_operation_new.
  rewrite (bind_Ret _ _ _ _ _ (load_mover_live _ _ _ Hdm)).
  rewrite (bind_Ret _ _ _ _ _ Halloc).
  destruct (membuf_alloc_inv _ _ _ _ _ Halloc) as [_ [[-> ->] | (Hp & _ & ->)]].
  - left. by rewrite decide_True.
  - right. split; [done|]. rewrite decide_False by done.
    eexists. split.
    + simpl. apply lookup_insert_eq.
    + erewrite bind_Ret; [reflexivity|].
      apply store32_live. simpl. apply lookup_insert_eq.
Qed.

Lemma sync_operation_new_inv vdm type w p w1 :
  sync_operation_new vdm type w = Ret p w1 → p ≠ NULL →
  ∃ s mb, slots w1 !! p = Some s ∧ dmo_complete (slot_val s) = 0 ∧
          membufs w1 !! slot_membuf s = Some mb.
Proof.
  unfold sync_operation_new. intros Hnew Hp.
  apply bind_inv in Hnew as (dm & w0 & Hload & Hnew).
  apply bind_inv in Hnew as (q & w2 & Halloc & Hnew).
  apply load_mover_inv in Hload as [_ ->].
  destruct (membuf_alloc_inv _ _ _ _ _ Halloc) as [[mbr Hmb] [[-> ->] | (Hq & _ & ->)]].
  - rewrite decide_True in Hnew by done. injection Hnew as <- <-. done.
  - rewrite decide_False in Hnew by done.
    erewrite (bind_Ret (store32 _ _)) in Hnew;
      [|apply store32_live; simpl; apply lookup_insert_eq].
    injection Hnew as <- <-. simpl.
    eexists _, mbr. rewrite lookup_insert_eq. split; [reflexivity|]. done.
Qed.

(** C6: when the mover's allocator returns no slot, [sync_operation_new]
    returns NULL and leaves the world as the allocator left it; when the
    allocator returns a slot, [sync_operation_new] returns that slot with
    its [complete] flag 0. *)
Theorem sync_operation_new_result vdm type w dm p w1 :
  movers w !! vdm = Some dm →
  membuf_alloc (dm_membuf dm) sizeof_data_mover_op w = Ret p w1 →
  (p = NULL → sync_operation_new vdm type w = Ret NULL w1) ∧
  (p ≠ NULL → ∃ w2, sync_operation_new vdm type w = Ret p w2 ∧
                    complete_flag w2 p = Some 0).
Proof.
  intros Hdm Halloc.
  destruct (sync_operation_new_run vdm type w dm p w1 Hdm Halloc)
    as [[Hp Hnew] | (Hp & s & Hs & Hnew)].
  - split; [done|]. intros Hne. done.
  - split; [done|]. intros _. eexists. split; [exact Hnew|].
    unfold complete_flag. simpl. by rewrite lookup_insert_eq.
Qed.

(** C10: [sync_operation_new] does not depend on the requested kind; with
    a kind that is neither copy nor move it returns the slot the allocator
    hands out like for any other kind, and the kind is only rejected later,
    by the FATAL of [sync_operation_start] and [sync_operation_delete] on
    the handle it returned. *)
Theorem sync_operation_new_ignores_type vdm w :
  (∀ t1 t2, sync_operation_new vdm t1 w = sync_operation_new vdm t2 w) ∧
  (∀ tag dm p w1,
     movers w !! vdm = Some dm →
     membuf_alloc (dm_membuf dm) sizeof_data_mover_op w = Ret p w1 →
     p ≠ NULL →
     ∃ w2,
       sync_operation_new vdm (VDM_OPERATION_other tag) w = Ret p w2 ∧
       ∀ operation n output,
         op_type operation = VDM_OPERATION_other tag →
         sync_operation_start p operation n w2 =
           Fatal "unsupported operation type" w2 ∧
         sync_operation_delete p operation output w2 =
           Fatal "unsupported operation type" w2).
Proof.
  split; [done|].
  intros tag dm p w1 Hdm Halloc Hp.
  destruct (sync_operation_new_run vdm (VDM_OPERATION_other tag) w dm p w1
              Hdm Halloc) as [[Hnull _] | (_ & s & Hs & Hnew)]; [done|].
  eexists. split; [exact Hnew|].
  intros operation n output Hkind.
  destruct (sync_operation_new_inv _ _ _ _ _ Hnew Hp) as (s' & mb & Hs' & _ & Hmb).
  split.
  - by eapply sync_operation_start_unsupported.
  - by eapply sync_operation_delete_unsupported.
Qed.

(** ** The completion flag *)

Lemma sync_operation_check_run w data operation s :
  slots w !! data = Some s →
  sync_operation_check data operation w =
    Ret (state_of_flag (dmo_complete (slot_val s)))
        (emit (EvAtomicLoad32 data (dmo_complete (slot_val s)) memory_order_acquire) w).
Proof.
  intros Hs. unfold sync_operation_check, util_atomic_load_explicit32, load32.
  unfold load_slot. munfold. by rewrite Hs.
Qed.

Lemma poll_run k w data operation s :
  slots w !! data = Some s →
  ∃ w', poll k data operation w =
          Ret (replicate k (state_of_flag (dmo_complete (slot_val s)))) w' ∧
        slots w' = slots w.
Proof.
  revert w. induction k as [|k IH]; intros w Hs.
  - by exists w.
  - simpl.
    rewrite (bind_Ret _ _ _ _ _ (sync_operation_check_run _ _ operation _ Hs)).
    destruct (IH (emit (EvAtomicLoad32 data (dmo_complete (slot_val s))
                          memory_order_acquire) w) Hs) as (w' & Hpoll & Hslots).
    rewrite (bind_Ret _ _ _ _ _ Hpoll). by exists w'.
Qed.

Lemma sync_operation_start_inv data operation n w0 r w :
  sync_operation_start data operation n w0 = Ret r w →
  ∃ s, slots w !! data = Some s ∧ dmo_complete (slot_val s) = 1.
Proof.
  unfold sync_operation_start. intros Hstart.
  apply bind_inv in Hstart as (mover & w1 & _ & Hstart).
  apply bind_inv in Hstart as (u & w2 & _ & Hstart).
  apply bind_inv in Hstart as (u' & w3 & Hstore & Hret).
  injection Hret as _ <-.
  unfold util_atomic_store_explicit32 in Hstore.
  apply bind_inv in Hstore as (u'' & w4 & Hstore & Hemit).
  unfold store32 in Hstore.
  apply bind_inv in Hstore as (s & w5 & Hload & Hset).
  apply load_slot_inv in Hload as [_ ->].
  injection Hemit; intros; injection Hset; intros; subst.
  exists (with_complete 1 s). simpl. by rewrite lookup_insert_eq.
Qed.

(** C2: on a live handle [sync_operation_check] returns
    FUTURE_STATE_COMPLETE exactly when the [complete] flag is non-zero and
    FUTURE_STATE_IDLE exactly when it is zero; in the world
    [sync_operation_new] returns a handle in, every poll of that handle
    returns FUTURE_STATE_IDLE; in the world [sync_operation_start] returns
    in, every poll of its handle returns FUTURE_STATE_COMPLETE. *)
Theorem sync_operation_check_state data operation w :
  (∀ s, slots w !! data = Some s →
     ∃ st w', sync_operation_check data operation w = Ret st w' ∧
       (st = FUTURE_STATE_COMPLETE ↔ dmo_complete (slot_val s) ≠ 0) ∧
       (st = FUTURE_STATE_IDLE ↔ dmo_complete (slot_val s) = 0)) ∧
  (∀ vdm type w0,
     sync_operation_new vdm type w0 = Ret data w → data ≠ NULL →
     (∃ w', sync_operation_check data operation w = Ret FUTURE_STATE_IDLE w') ∧
     ∀ k, ∃ w', poll k data operation w = Ret (replicate k FUTURE_STATE_IDLE) w') ∧
  (∀ op0 n r w0,
     sync_operation_start data op0 n w0 = Ret r w →
     (∃ w', sync_operation_check data operation w = Ret FUTURE_STATE_COMPLETE w') ∧
     ∀ k, ∃ w', poll k data operation w = Ret (replicate k FUTURE_STATE_COMPLETE) w').
Proof.
  split; [|split].
  - intros s Hs. eexists _, _. split; [by apply sync_operation_check_run|].
    unfold state_of_flag. destruct (decide (dmo_complete (slot_val s) = 0)) as [->|Hne].
    + split; split; done.
    + split; split; done.
  - intros vdm type w0 Hnew Hdata.
    destruct (sync_operation_new_inv _ _ _ _ _ Hnew Hdata) as (s & mb & Hs & Hflag & _).
    split.
    + eexists. rewrite (sync_operation_check_run _ _ _ _ Hs). by rewrite Hflag.
    + intros k. destruct (poll_run k w data operation s Hs) as (w' & Hpoll & _).
      exists w'. by rewrite Hpoll, Hflag.
  - intros op0 n r w0 Hstart.
    destruct (sync_operation_start_inv _ _ _ _ _ _ Hstart) as (s & Hs & Hflag).
    split.
    + eexists. rewrite (sync_operation_check_run _ _ _ _ Hs). by rewrite Hflag.
    + intros k. destruct (poll_run k w data operation s Hs) as (w' & Hpoll & _).
      exists w'. by rewrite Hpoll, Hflag.
Qed.

(** ** Construction of a mover *)

Lemma world_eq w1 w2 :
  movers w1 = movers w2 → membufs w1 = membufs w2 → slots w1 = slots w2 →
  maps w1 = maps w2 → heap_avail w1 = heap_avail w2 → junk w1 = junk w2 →
  errno w1 = errno w2 → trace w1 = trace w2 → w1 = w2.
Proof. destruct w1, w2. simpl. by intros -> -> -> -> -> -> -> ->. Qed.

Lemma pmem2_malloc_inv size w p e w1 :
  pmem2_malloc size w = Ret (p, e) w1 → p ≠ NULL →
  p = fresh (live w) ∧
  w1 = set_heap_avail (λ a, a - size)
         (set_movers <[p := indeterminate_mover (junk w)]> w).
Proof.
  unfold pmem2_malloc. munfold. simpl.
  destruct (decide (size ≤ heap_avail w)); simpl.
  - by intros [= <- <- <-] _.
  - by intros [= <- <- <-] Hnull.
Qed.

(** The two stores that bind the new object to the vtable and the region. *)
Lemma mover_new_bind dms map w dm (k : M (Z * Z)) :
  movers w !! dms = Some dm → dm_membuf dm = junk w →
  (store_mover dms (λ dm, {| dm_base := data_mover_vdm; dm_map := dm_map dm;
                             dm_membuf := dm_membuf dm |});;
   store_mover dms (λ dm, {| dm_base := dm_base dm; dm_map := map;
                             dm_membuf := dm_membuf dm |});; k) w =
  k (mover_bound dms map w).
Proof.
  intros Hdm Hjunk. unfold store_mover, load_mover. munfold. simpl.
  rewrite Hdm. simpl. rewrite lookup_insert_eq. simpl. f_equal.
  apply world_eq; simpl; try done.
  by rewrite insert_insert_eq, Hjunk.
Qed.

(** C5: when the allocation of the mover succeeds, [mover_new] binds the
    new object to the vtable and the region and calls [membuf_new] with the
    object as user data.  If [membuf_new] returns NULL, [mover_new] returns
    PMEM2_E_ERRNO for the errno that call left, and the object is freed:
    the live movers, allocators and slots and the available memory are
    those before the call.  Otherwise [mover_new] returns 0 and stores the
    object's address through its second argument; the object holds the
    vtable, the region and the new allocator, whose user data is the
    object. *)
Theorem mover_new_result map vdm w dms e w1 :
  pmem2_malloc sizeof_data_mover w = Ret (dms, e) w1 →
  dms ≠ NULL →
  ∃ mb w2,
    membuf_new dms (mover_bound dms map w1) = Ret mb w2 ∧
    (mb = NULL →
     ∃ w3, mover_new map vdm w = Ret (PMEM2_E_ERRNO (errno w2), dms) w3 ∧
           movers w3 = movers w ∧ movers w3 !! dms = None ∧
           membufs w3 = membufs w ∧ slots w3 = slots w ∧
           heap_avail w3 = heap_avail w) ∧
    (mb ≠ NULL →
     ∃ w3, mover_new map vdm w = Ret (0, dms) w3 ∧
           movers w3 !! dms =
             Some {| dm_base := data_mover_vdm; dm_map := map; dm_membuf := mb |} ∧
           membufs w3 !! mb = Some {| mb_user_data := dms |}).
Proof.
  intros Hmalloc Hdms.
  destruct (pmem2_malloc_inv _ _ _ _ _ Hmalloc Hdms) as [Hfresh Hw1].
  destruct (fresh_live w) as (_ & Hfree & _). rewrite <- Hfresh in Hfree.
  unfold mover_new. rewrite (bind_Ret _ _ _ _ _ Hmalloc). simpl.
  rewrite decide_False by done.
  rewrite (mover_new_bind dms map w1 (indeterminate_mover (junk w)));
    [|subst w1; simpl; apply lookup_insert_eq|by subst w1].
  unfold membuf_new. munfold. simpl.
  destruct (decide (sizeof_membuf ≤ heap_avail w1)) as [Hfit|Hfull]; simpl.
  - eexists _, _. split; [reflexivity|]. split; [intros Hnull|intros _].
    + destruct (fresh_live (mover_bound dms map w1)) as (Hne & _). done.
    + unfold store_mover, load_mover. munfold. simpl.
      rewrite lookup_insert_eq. simpl.
      rewrite decide_False by apply (fresh_live (mover_bound dms map w1)).
      eexists. split; [reflexivity|]. simpl.
      by rewrite !lookup_insert_eq.
  - eexists _, _. split; [reflexivity|]. split; [intros _|done].
    unfold store_mover, load_mover, free, load_mover. munfold. simpl.
    rewrite lookup_insert_eq. simpl.
    rewrite decide_False by done. simpl.
    rewrite lookup_insert_eq. munfold. simpl.
    eexists. split; [reflexivity|]. simpl. subst w1. simpl.
    rewrite !delete_insert_eq, lookup_delete_eq.
    rewrite delete_id by done.
    repeat split; try done. lia.
Qed.

(** ** The entry points *)

(** C9: [pmem2_memcpy_async] returns the same outcome for any two values of
    [flags]; the future it returns is the one [vdm_memcpy] builds for the
    region's mover with flags 0, so the operation it carries has flags 0. *)
Theorem pmem2_memcpy_async_ignores_flags map pmemdest src len w :
  (∀ flags1 flags2,
     pmem2_memcpy_async map pmemdest src len flags1 w =
     pmem2_memcpy_async map pmemdest src len flags2 w) ∧
  (∀ flags fut w',
     pmem2_memcpy_async map pmemdest src len flags w = Ret fut w' →
     data_flags (fut_operation fut) = 0 ∧
     ∃ m, maps w !! map = Some m ∧
          vdm_memcpy (map_vdm m) pmemdest src len 0 w = Ret fut w').
Proof.
  split; [done|].
  intros flags fut w' Hrun. unfold pmem2_memcpy_async in Hrun.
  apply bind_inv in Hrun as (m & w1 & Hmap & Hrun).
  apply load_map_inv in Hmap as [Hmap ->].
  split; [|by exists m].
  unfold vdm_memcpy in Hrun.
  apply bind_inv in Hrun as (dm & w2 & _ & Hrun).
  apply bind_inv in Hrun as (data & w3 & _ & Hrun).
  by injection Hrun as <- _.
Qed.

(** What a public function that returns a future was called with and what
    the future holds. *)
Lemma api_run_future_inv c w fut w' :
  api_run c w = Ret (res_future fut) w' →
  ∃ map pmemdest src len flags m,
    c = call_pmem2_memcpy_async map pmemdest src len flags ∧
    maps w !! map = Some m ∧
    fut_vdm fut = map_vdm m ∧
    fut_operation fut =
      {| op_type := VDM_OPERATION_MEMCPY; data_dest := pmemdest;
         data_src := src; data_n := len; data_flags := 0 |} ∧
    fut_state fut = FUTURE_STATE_IDLE.
Proof.
  destruct c as [map vdm | dms | map pmemdest src len flags]; simpl; intros Hrun.
  - apply bind_inv in Hrun as ([ret vdm'] & w1 & _ & Hret). done.
  - apply bind_inv in Hrun as (u & w1 & _ & Hret). done.
  - apply bind_inv in Hrun as (fut' & w1 & Hrun & Hret).
    injection Hret as -> ->.
    unfold pmem2_memcpy_async in Hrun.
    apply bind_inv in Hrun as (m & w2 & Hmap & Hrun).
    apply load_map_inv in Hmap as [Hmap ->].
    unfold vdm_memcpy in Hrun.
    apply bind_inv in Hrun as (dm & w3 & _ & Hrun).
    apply bind_inv in Hrun as (data & w4 & _ & Hrun).
    injection Hrun as <- _.
    by exists map, pmemdest, src, len, flags, m.
Qed.

(** C4, as the code has it: the only public function of the file that
    returns a future is [pmem2_memcpy_async] (region, dest, src, length,
    flags); the future references the mover of the region and carries a
    copy operation with the given destination, source and length, in state
    idle. *)
Theorem public_futures_are_copies c w fut w' :
  api_run c w = Ret (res_future fut) w' →
  ∃ map pmemdest src len flags m,
    c = call_pmem2_memcpy_async map pmemdest src len flags ∧
    maps w !! map = Some m ∧
    fut_vdm fut = map_vdm m ∧
    op_type (fut_operation fut) = VDM_OPERATION_MEMCPY ∧
    data_dest (fut_operation fut) = pmemdest ∧
    data_src (fut_operation fut) = src ∧
    data_n (fut_operation fut) = len ∧
    fut_state fut = FUTURE_STATE_IDLE.
Proof.
  intros Hrun.
  destruct (api_run_future_inv c w fut w' Hrun)
    as (map & pmemdest & src & len & flags & m & -> & Hm & Hvdm & Hop & Hst).
  exists map, pmemdest, src, len, flags, m. rewrite Hop. by simpl.
Qed.

(** ** What a call that returned has done *)

Lemma sync_operation_check_shape data operation w st w' :
  sync_operation_check data operation w = Ret st w' →
  ∃ s, slots w !! data = Some s ∧
       st = state_of_flag (dmo_complete (slot_val s)) ∧
       w' = emit (EvAtomicLoad32 data (dmo_complete (slot_val s))
                    memory_order_acquire) w.
Proof.
  destruct (slots w !! data) as [s|] eqn:Hs.
  - rewrite (sync_operation_check_run _ _ operation _ Hs).
    intros [= <- <-]. by exists s.
  - unfold sync_operation_check, util_atomic_load_explicit32, load32, load_slot.
    munfold. by rewrite Hs.
Qed.

Lemma sync_operation_start_shape data operation n w r w' :
  sync_operation_start data operation n w = Ret r w' →
  ∃ s mb dm m,
    slots w !! data = Some s ∧
    membufs w !! slot_membuf s = Some mb ∧
    movers w !! mb_user_data mb = Some dm ∧
    maps w !! dm_map dm = Some m ∧
    (op_type operation = VDM_OPERATION_MEMCPY ∨
     op_type operation = VDM_OPERATION_MEMMOVE) ∧
    r = (0, (λ _, {| notifier_used := FUTURE_NOTIFIER_NONE |}) <$> n) ∧
    w' = emit (EvAtomicStore32 data 1 memory_order_release)
           (set_slots <[data := with_complete 1 s]>
              (emit (EvMemFn (durable_fn m (op_type operation))
                       (data_dest operation) (data_src operation)
                       (data_n operation) PMEM2_F_MEM_NONTEMPORAL) w)).
Proof.
  intros Hstart. pose proof Hstart as Hrun. unfold sync_operation_start in Hrun.
  apply bind_inv in Hrun as (mover & w1 & Hud & Hrun).
  unfold membuf_ptr_user_data in Hud.
  apply bind_inv in Hud as (s & w2 & Hs & Hud).
  apply load_slot_inv in Hs as [Hs ->].
  apply bind_inv in Hud as (mb & w3 & Hmb & Hud).
  apply load_membuf_inv in Hmb as [Hmb ->].
  injection Hud as <- <-.
  apply bind_inv in Hrun as (u & w2 & Hbranch & _).
  destruct (op_type operation) as [| |tag] eqn:Hkind.
  - apply bind_inv in Hbranch as (dm & w3 & Hdm & Hbranch).
    apply load_mover_inv in Hdm as [Hdm ->].
    apply bind_inv in Hbranch as (fn & w4 & Hfn & _).
    unfold pmem2_get_memcpy_fn in Hfn.
    apply bind_inv in Hfn as (m & w5 & Hm & _).
    apply load_map_inv in Hm as [Hm ->].
    rewrite (sync_operation_start_run w data operation n s mb dm m (map_memcpy_fn m))
      in Hstart by (try done; by left).
    injection Hstart as <- <-. exists s, mb, dm, m. simpl. eauto 10.
  - apply bind_inv in Hbranch as (dm & w3 & Hdm & Hbranch).
    apply load_mover_inv in Hdm as [Hdm ->].
    apply bind_inv in Hbranch as (fn & w4 & Hfn & _).
    unfold pmem2_get_memmove_fn in Hfn.
    apply bind_inv in Hfn as (m & w5 & Hm & _).
    apply load_map_inv in Hm as [Hm ->].
    rewrite (sync_operation_start_run w data operation n s mb dm m (map_memmove_fn m))
      in Hstart by (try done; by right).
    injection Hstart as <- <-. exists s, mb, dm, m. simpl. eauto 10.
  - done.
Qed.

Lemma sync_operation_new_shape vdm type w p w1 :
  sync_operation_new vdm type w = Ret p w1 →
  ∃ dm, movers w !! vdm = Some dm ∧
        is_Some (membufs w !! dm_membuf dm) ∧
        ((p = NULL ∧ w1 = w) ∨
         (p ≠ NULL ∧ slots w !! p = None ∧
          w1 = set_slots
                 <[p := with_complete 0
                          (fresh_slot (dm_membuf dm) sizeof_data_mover_op w)]>
                 (set_heap_avail (λ a, a - sizeof_data_mover_op)
                    (set_slots
                       <[p := fresh_slot (dm_membuf dm) sizeof_data_mover_op w]> w)))).
Proof.
  unfold sync_operation_new. intros Hnew.
  apply bind_inv in Hnew as (dm & w0 & Hload & Hnew).
  apply bind_inv in Hnew as (q & w2 & Halloc & Hnew).
  apply load_mover_inv in Hload as [Hdm ->].
  destruct (membuf_alloc_inv _ _ _ _ _ Halloc) as [Hmb [[-> ->] | (Hq & Hfree & ->)]].
  - rewrite decide_True in Hnew by done. injection Hnew as <- <-.
    exists dm. split; [done|]. split; [done|]. by left.
  - rewrite decide_False in Hnew by done.
    erewrite (bind_Ret (store32 _ _)) in Hnew;
      [|apply store32_live; simpl; apply lookup_insert_eq].
    injection Hnew as <- <-.
    exists dm. split; [done|]. split; [done|]. right. done.
Qed.

Lemma sync_operation_delete_shape data operation output w out w' :
  sync_operation_delete data operation output w = Ret out w' →
  ∃ s, slots w !! data = Some s ∧
       (op_type operation = VDM_OPERATION_MEMCPY ∨
        op_type operation = VDM_OPERATION_MEMMOVE) ∧
       out = {| out_type := op_type operation; out_result := VDM_SUCCESS;
                out_dest := data_dest operation |} ∧
       w' = set_heap_avail (λ a, a + slot_size s) (set_slots (delete data) w).
Proof.
  unfold sync_operation_delete, membuf_free, load_slot.
  destruct (op_type operation) as [| |tag] eqn:Hkind; munfold; simpl; [| |done].
  - destruct (slots w !! data) as [s|] eqn:Hs; simpl; [|done].
    intros [= <- <-]. exists s. eauto.
  - destruct (slots w !! data) as [s|] eqn:Hs; simpl; [|done].
    intros [= <- <-]. exists s. eauto.
Qed.


(** X4: a [sync_operation_check] that returns has read the flag of a live
    handle with one acquire load and has written nothing: every heap
    object, the available memory and errno are as before, and the state it
    reports is the one of the flag it read. *)
Theorem sync_operation_check_readonly data operation w st w' :
  sync_operation_check data operation w = Ret st w' →
  ∃ flag,
    complete_flag w data = Some flag ∧
    st = state_of_flag flag ∧
    trace w' = trace w ++ [EvAtomicLoad32 data flag memory_order_acquire] ∧
    movers w' = movers w ∧ membufs w' = membufs w ∧ slots w' = slots w ∧
    maps w' = maps w ∧ heap_avail w' = heap_avail w ∧ errno w' = errno w.
Proof.
  intros Hcheck.
  destruct (sync_operation_check_shape _ _ _ _ _ Hcheck) as (s & Hs & -> & ->).
  exists (dmo_complete (slot_val s)). unfold complete_flag. rewrite Hs. done.
Qed.

(** X5: whenever [sync_operation_start] returns, the operation was a copy
    or a move, the returned value is 0, the flag of the handle is 1, a
    notifier that was passed holds FUTURE_NOTIFIER_NONE, and the trace grew
    by the one call of the region's function for the kind followed by the
    release store. *)
Theorem sync_operation_start_returns data operation n w r w' :
  sync_operation_start data operation n w = Ret r w' →
  (op_type operation = VDM_OPERATION_MEMCPY ∨
   op_type operation = VDM_OPERATION_MEMMOVE) ∧
  r.1 = 0 ∧
  notifier_used <$> r.2 = (λ _, FUTURE_NOTIFIER_NONE) <$> n ∧
  complete_flag w' data = Some 1 ∧
  ∃ s mb dm m,
    slots w !! data = Some s ∧
    membufs w !! slot_membuf s = Some mb ∧
    movers w !! mb_user_data mb = Some dm ∧
    maps w !! dm_map dm = Some m ∧
    trace w' = trace w ++
      [EvMemFn (durable_fn m (op_type operation)) (data_dest operation)
         (data_src operation) (data_n operation) PMEM2_F_MEM_NONTEMPORAL;
       EvAtomicStore32 data 1 memory_order_release].
Proof.
  intros Hstart.
  destruct (sync_operation_start_shape _ _ _ _ _ _ Hstart)
    as (s & mb & dm & m & Hs & Hmb & Hdm & Hm & Hkind & -> & ->).
  split; [done|]. split; [done|]. split; [by destruct n|]. split.
  - unfold complete_flag. simpl. by rewrite lookup_insert_eq.
  - exists s, mb, dm, m. simpl. by rewrite <- app_assoc.
Qed.

(** X6: a [sync_operation_start] that returns has changed nothing in the
    heap but the [complete] field of its own slot: the other fields of the
    slot, every other slot, the movers, allocators and regions, the
    available memory and errno are as before. *)
Theorem sync_operation_start_frame data operation n w r w' :
  sync_operation_start data operation n w = Ret r w' →
  (∃ s, slots w !! data = Some s ∧ slots w' !! data = Some (with_complete 1 s)) ∧
  (∀ p, p ≠ data → slots w' !! p = slots w !! p) ∧
  movers w' = movers w ∧ membufs w' = membufs w ∧ maps w' = maps w ∧
  heap_avail w' = heap_avail w ∧ errno w' = errno w.
Proof.
  intros Hstart.
  destruct (sync_operation_start_shape _ _ _ _ _ _ Hstart)
    as (s & mb & dm & m & Hs & _ & _ & _ & _ & _ & ->).
  split; [|split].
  - exists s. simpl. by rewrite lookup_insert_eq.
  - intros p Hp. simpl. by rewrite lookup_insert_ne.
  - done.
Qed.

(** X7: a [sync_operation_new] that returns NULL has changed nothing.  One
    that returns a handle returns an address that was not a live slot
    before; the new slot belongs to the allocator of the mover and has
    [complete] 0, the available memory shrank by the size of a
    [struct data_mover_op], and every other slot, the movers, allocators
    and regions, errno and the trace are as before: nothing is copied and
    no atomic access happens before the operation is started. *)
Theorem sync_operation_new_frame vdm type w p w1 :
  sync_operation_new vdm type w = Ret p w1 →
  (p = NULL → w1 = w) ∧
  (p ≠ NULL →
   slots w !! p = None ∧
   (∃ dm s, movers w !! vdm = Some dm ∧ slots w1 !! p = Some s ∧
            slot_membuf s = dm_membuf dm ∧ dmo_complete (slot_val s) = 0) ∧
   (∀ q, q ≠ p → slots w1 !! q = slots w !! q) ∧
   heap_avail w1 = heap_avail w - sizeof_data_mover_op ∧
   movers w1 = movers w ∧ membufs w1 = membufs w ∧ maps w1 = maps w ∧
   errno w1 = errno w ∧ trace w1 = trace w).
Proof.
  intros Hnew.
  destruct (sync_operation_new_shape _ _ _ _ _ Hnew)
    as (dm & Hdm & _ & [[-> ->] | (Hp & Hfree & ->)]).
  - split; [done|]. by intros Hne.
  - split; [done|]. intros _. split; [done|]. split; [|split].
    + eexists dm, _. split; [done|]. simpl. rewrite lookup_insert_eq. done.
    + intros q Hq. simpl. by rewrite !lookup_insert_ne.
    + done.
Qed.

(** X8: a [sync_operation_delete] that returns was given a copy or a move
    on a live handle; the output is built from the operation's kind and
    destination alone, with result VDM_SUCCESS, whatever the flag and the
    output object held.  The handle is no longer live afterwards, its bytes
    are back in the available memory, and every other slot, the movers,
    allocators and regions, errno and the trace are as before. *)
Theorem sync_operation_delete_frame data operation output w out w' :
  sync_operation_delete data operation output w = Ret out w' →
  (op_type operation = VDM_OPERATION_MEMCPY ∨
   op_type operation = VDM_OPERATION_MEMMOVE) ∧
  out = {| out_type := op_type operation; out_result := VDM_SUCCESS;
           out_dest := data_dest operation |} ∧
  (∃ s, slots w !! data = Some s ∧ heap_avail w' = heap_avail w + slot_size s) ∧
  slots w' !! data = None ∧
  (∀ p, p ≠ data → slots w' !! p = slots w !! p) ∧
  movers w' = movers w ∧ membufs w' = membufs w ∧ maps w' = maps w ∧
  errno w' = errno w ∧ trace w' = trace w.
Proof.
  intros Hdel.
  destruct (sync_operation_delete_shape _ _ _ _ _ _ Hdel) as (s & Hs & Hkind & -> & ->).
  split; [done|]. split; [done|]. split; [by exists s|]. simpl.
  split; [apply lookup_delete_eq|]. split; [|done].
  intros p Hp. by rewrite lookup_delete_ne.
Qed.


(** ** The life cycle of an operation *)

Lemma sync_operation_new_success vdm type w dm mb :
  movers w !! vdm = Some dm →
  membufs w !! dm_membuf dm = Some mb →
  sizeof_data_mover_op ≤ heap_avail w →
  sync_operation_new vdm type w =
    Ret (fresh (live w))
        (set_slots
           <[fresh (live w) :=
               with_complete 0 (fresh_slot (dm_membuf dm) sizeof_data_mover_op w)]>
           (set_heap_avail (λ a, a - sizeof_data_mover_op)
              (set_slots
                 <[fresh (live w) :=
                     fresh_slot (dm_membuf dm) sizeof_data_mover_op w]> w))).
Proof.
  intros Hdm Hmb Hfit.
  assert (membuf_alloc (dm_membuf dm) sizeof_data_mover_op w =
            Ret (fresh (live w))
                (set_heap_avail (λ a, a - sizeof_data_mover_op)
                   (set_slots
                      <[fresh (live w) :=
                          fresh_slot (dm_membuf dm) sizeof_data_mover_op w]> w)))
    as Halloc.
  { unfold membuf_alloc, load_membuf. munfold. simpl. rewrite Hmb. simpl.
    by rewrite decide_True. }
  destruct (sync_operation_new_run vdm type w dm _ _ Hdm Halloc)
    as [[Hnull _] | (_ & s & Hs & ->)].
  - by destruct (fresh_live w).
  - simpl in Hs. rewrite lookup_insert_eq in Hs. by injection Hs as <-.
Qed.

(** The three calls that follow [sync_operation_new] on the handle it
    returned, with the worlds they leave. *)
Lemma operation_lifecycle_run w vdm dm mb m type p w1 operation n output :
  mover_ready w vdm dm mb m →
  sync_operation_new vdm type w = Ret p w1 → p ≠ NULL →
  op_type operation = VDM_OPERATION_MEMCPY ∨
  op_type operation = VDM_OPERATION_MEMMOVE →
  let e1 := EvMemFn (durable_fn m (op_type operation)) (data_dest operation)
              (data_src operation) (data_n operation) PMEM2_F_MEM_NONTEMPORAL in
  let e2 := EvAtomicStore32 p 1 memory_order_release in
  let e3 := EvAtomicLoad32 p 1 memory_order_acquire in
  ∃ w2 w3,
    sync_operation_start p operation n w1 =
      Ret (0, (λ _, {| notifier_used := FUTURE_NOTIFIER_NONE |}) <$> n) w2 ∧
    sync_operation_check p operation w2 = Ret FUTURE_STATE_COMPLETE w3 ∧
    sync_operation_delete p operation output w3 =
      Ret {| out_type := op_type operation; out_result := VDM_SUCCESS;
             out_dest := data_dest operation |}
          (emit e3 (emit e2 (emit e1 w))).
Proof.
  intros (Hdm & Hmb & Howner & Hm) Hnew Hp Hkind e1 e2 e3.
  destruct (sync_operation_new_shape _ _ _ _ _ Hnew)
    as (dm' & Hdm' & _ & [[-> _] | (_ & Hfree & ->)]); [done|].
  rewrite Hdm in Hdm'. injection Hdm' as <-.
  set (s0 := with_complete 0 (fresh_slot (dm_membuf dm) sizeof_data_mover_op w)).
  eexists _, _. split; [|split].
  - apply (sync_operation_start_run _ p operation n s0 mb dm m
             (durable_fn m (op_type operation))).
    + simpl. apply lookup_insert_eq.
    + done.
    + simpl. by rewrite Howner.
    + done.
    + destruct Hkind as [Hk | Hk]; rewrite Hk; [by left | by right].
  - rewrite (sync_operation_check_run _ p operation (with_complete 1 s0))
      by (simpl; apply lookup_insert_eq).
    reflexivity.
  - unfold sync_operation_delete, membuf_free, load_slot. subst e1 e2 e3.
    destruct Hkind as [Hk | Hk]; rewrite Hk; munfold; simpl;
      rewrite lookup_insert_eq; simpl; f_equal;
      (apply world_eq; simpl; try done;
       [rewrite !delete_insert_eq; by apply delete_id | lia]).
Qed.

(** X10: on a mover in working order, a handle returned by
    [sync_operation_new] can be driven through the whole protocol with a
    copy or a move: start returns 0, the check that follows reports
    COMPLETE, delete returns the output for the operation, and the slot is
    given back, so that the world after delete is the world before new
    with three more events in the trace: the call of the region's function
    for the kind, the release store and the acquire load. *)
Theorem operation_lifecycle w vdm dm mb m type p w1 operation n output :
  mover_ready w vdm dm mb m →
  sync_operation_new vdm type w = Ret p w1 → p ≠ NULL →
  op_type operation = VDM_OPERATION_MEMCPY ∨
  op_type operation = VDM_OPERATION_MEMMOVE →
  ∃ w2 w3 w4 out,
    sync_operation_start p operation n w1 =
      Ret (0, (λ _, {| notifier_used := FUTURE_NOTIFIER_NONE |}) <$> n) w2 ∧
    sync_operation_check p operation w2 = Ret FUTURE_STATE_COMPLETE w3 ∧
    sync_operation_delete p operation output w3 = Ret out w4 ∧
    out_dest out = data_dest operation ∧
    out_result out = VDM_SUCCESS ∧
    slots w4 = slots w ∧ heap_avail w4 = heap_avail w ∧
    movers w4 = movers w ∧ membufs w4 = membufs w ∧ maps w4 = maps w ∧
    trace w4 = trace w ++
      [EvMemFn (durable_fn m (op_type operation)) (data_dest operation)
         (data_src operation) (data_n operation) PMEM2_F_MEM_NONTEMPORAL;
       EvAtomicStore32 p 1 memory_order_release;
       EvAtomicLoad32 p 1 memory_order_acquire].
Proof.
  intros Hready Hnew Hp Hkind.
  destruct (operation_lifecycle_run w vdm dm mb m type p w1 operation n output
              Hready Hnew Hp Hkind) as (w2 & w3 & Hstart & Hcheck & Hdelete).
  eexists w2, w3, _, _. split; [exact Hstart|]. split; [exact Hcheck|].
  split; [exact Hdelete|]. simpl. repeat split; try done.
  by rewrite <- !app_assoc.
Qed.

(** ** Construction and destruction of a mover *)

Lemma mover_new_no_memory map vdm w :
  ¬ sizeof_data_mover ≤ heap_avail w →
  mover_new map vdm w = Ret (PMEM2_E_ERRNO ENOMEM, vdm) (set_errno ENOMEM w).
Proof.
  intros Hfull. unfold mover_new, pmem2_malloc. munfold. simpl.
  rewrite decide_False by done. done.
Qed.

(** The world in which [mover_new] calls [membuf_new]. *)
Lemma mover_new_until_membuf map vdm w :
  sizeof_data_mover ≤ heap_avail w →
  mover_new map vdm w =
    (mb ← membuf_new (fresh (live w));
     store_mover (fresh (live w))
       (λ dm, {| dm_base := dm_base dm; dm_map := dm_map dm; dm_membuf := mb |});;
     if decide (mb = NULL) then
       ret ← get (λ w, PMEM2_E_ERRNO (errno w));
       free (fresh (live w));;
       mret (ret, fresh (live w))
     else mret (0, fresh (live w)))
    (mover_new_bound map w).
Proof.
  intros Hfit. unfold mover_new_bound.
  assert (pmem2_malloc sizeof_data_mover w =
            Ret (fresh (live w), 0)
                (set_heap_avail (λ a, a - sizeof_data_mover)
                   (set_movers <[fresh (live w) := indeterminate_mover (junk w)]> w)))
    as Hmalloc.
  { unfold pmem2_malloc. munfold. simpl. by rewrite decide_True. }
  unfold mover_new. rewrite (bind_Ret _ _ _ _ _ Hmalloc). simpl.
  rewrite decide_False by apply fresh_live.
  by rewrite (mover_new_bind _ map _ (indeterminate_mover (junk w)));
    [|simpl; apply lookup_insert_eq|].
Qed.

Lemma mover_new_membuf_failure map vdm w :
  sizeof_data_mover ≤ heap_avail w →
  ¬ sizeof_membuf ≤ heap_avail w - sizeof_data_mover →
  mover_new map vdm w =
    Ret (PMEM2_E_ERRNO ENOMEM, fresh (live w)) (set_errno ENOMEM w).
Proof.
  intros Hfit Hfull. rewrite (mover_new_until_membuf map vdm w) by done.
  destruct (fresh_live w) as (Hnull & Hfree & _).
  unfold mover_new_bound, membuf_new, store_mover, load_mover, free, load_mover. munfold. simpl.
  rewrite decide_False by done. simpl.
  rewrite lookup_insert_eq. simpl.
  rewrite decide_False by done. simpl.
  rewrite lookup_insert_eq. munfold. simpl. f_equal.
  apply world_eq; simpl; try done.
  - rewrite !delete_insert_eq. by apply delete_id.
  - lia.
Qed.

Lemma mover_new_success map vdm w :
  sizeof_data_mover ≤ heap_avail w →
  sizeof_membuf ≤ heap_avail w - sizeof_data_mover →
  mover_new map vdm w = Ret (0, fresh (live w)) (mover_created map w).
Proof.
  intros Hfit Hroom. rewrite (mover_new_until_membuf map vdm w) by done.
  unfold mover_created.
  destruct (fresh_live (mover_new_bound map w)) as (Hnull & _).
  unfold membuf_new, store_mover, load_mover. munfold. simpl.
  rewrite decide_True by done. simpl.
  rewrite lookup_insert_eq. simpl.
  by rewrite decide_False by done.
Qed.

(** What a successful [mover_new] leaves: a mover in working order when
    the region is mapped. *)
Lemma mover_created_ready map w m :
  maps w !! map = Some m →
  mover_ready (mover_created map w) (fresh (live w))
    {| dm_base := data_mover_vdm; dm_map := map;
       dm_membuf := fresh (live (mover_new_bound map w)) |}
    {| mb_user_data := fresh (live w) |} m.
Proof.
  intros Hm. unfold mover_ready, mover_created. simpl.
  by rewrite !lookup_insert_eq.
Qed.

Lemma mover_created_fresh map w :
  fresh (live (mover_new_bound map w)) ≠ NULL ∧
  fresh (live (mover_new_bound map w)) ≠ fresh (live w) ∧
  membufs w !! fresh (live (mover_new_bound map w)) = None.
Proof.
  destruct (fresh_live (mover_new_bound map w)) as (Hnull & Hmov & Hmb & _).
  split; [done|]. split; [|done].
  intros Heq. rewrite Heq in Hmov. unfold mover_new_bound, mover_bound in Hmov.
  simpl in Hmov. by rewrite lookup_insert_eq in Hmov.
Qed.

(** X1: when the [struct data_mover] cannot be allocated, [mover_new]
    returns the error code of the failed allocation, leaves the object its
    second argument points to as it was, and changes nothing in the world
    but errno. *)
Theorem mover_new_malloc_failure map vdm w :
  heap_avail w < sizeof_data_mover →
  pmem2_malloc sizeof_data_mover w =
    Ret (NULL, PMEM2_E_ERRNO ENOMEM) (set_errno ENOMEM w) ∧
  mover_new map vdm w = Ret (PMEM2_E_ERRNO ENOMEM, vdm) (set_errno ENOMEM w).
Proof.
  intros Hfull. split.
  - unfold pmem2_malloc. munfold. simpl. rewrite decide_False by lia. done.
  - apply mover_new_no_memory. lia.
Qed.

(** X2: when the allocator cannot be constructed, [mover_new] has already
    stored the address of the new object through its second argument; it
    returns with that address still there although the object was freed,
    so that the caller holds a dangling pointer: a [sync_operation_new] or
    a [mover_delete] on it reads through an object that is not live. *)
Theorem mover_new_failure_dangling map vdm w :
  sizeof_data_mover ≤ heap_avail w →
  heap_avail w - sizeof_data_mover < sizeof_membuf →
  ∃ dms w',
    mover_new map vdm w = Ret (PMEM2_E_ERRNO ENOMEM, dms) w' ∧
    dms ≠ NULL ∧
    movers w' !! dms = None ∧
    (∀ type, sync_operation_new dms type w' = Undefined) ∧
    mover_delete dms w' = Undefined.
Proof.
  intros Hfit Hfull. destruct (fresh_live w) as (Hnull & Hfree & _).
  eexists _, _. split; [apply mover_new_membuf_failure; [done | lia]|].
  split; [done|]. split; [done|]. split.
  - intros type. unfold sync_operation_new, load_mover. munfold. simpl.
    by rewrite Hfree.
  - unfold mover_delete, load_mover. munfold. simpl. by rewrite Hfree.
Qed.

Lemma mover_delete_created map w :
  slots_owned w →
  mover_delete (fresh (live w)) (mover_created map w) = Ret tt w.
Proof.
  intros Howned.
  destruct (fresh_live w) as (Hnull & Hfree & _).
  destruct (mover_created_fresh map w) as (Hmbnull & Hne & Hmbfree).
  unfold mover_delete, load_mover. munfold. simpl.
  rewrite lookup_insert_eq. simpl.
  unfold membuf_delete, load_membuf. munfold. simpl.
  rewrite lookup_insert_eq. simpl.
  rewrite decide_True.
  - simpl. unfold free, load_mover. munfold.
    rewrite decide_False by done. simpl.
    rewrite lookup_insert_eq. simpl. f_equal.
    apply world_eq; simpl; try done.
    + rewrite !delete_insert_eq. by apply delete_id.
    + rewrite delete_insert_eq. by apply delete_id.
    + lia.
  - intros p s Hs Heq. destruct (Howned p s Hs) as [mb Hmb].
    rewrite Heq, Hmbfree in Hmb. done.
Qed.

(** X3: in a world where every slot has a live allocator and there is
    memory for a mover and its allocator, [mover_new] returns 0 and a
    [mover_delete] of the mover it stored returns and leaves exactly the
    world before [mover_new]: the allocator and the object are released,
    nothing else is touched. *)
Theorem mover_new_delete_roundtrip map vdm w :
  slots_owned w →
  sizeof_data_mover ≤ heap_avail w →
  sizeof_membuf ≤ heap_avail w - sizeof_data_mover →
  ∃ dms w1,
    mover_new map vdm w = Ret (0, dms) w1 ∧
    mover_delete dms w1 = Ret tt w.
Proof.
  intros Howned Hfit Hroom. eexists _, _. split.
  - by apply mover_new_success.
  - by apply mover_delete_created.
Qed.

Lemma mover_delete_shape dms w u w' :
  mover_delete dms w = Ret u w' →
  ∃ dm, movers w !! dms = Some dm ∧
        is_Some (membufs w !! dm_membuf dm) ∧
        map_Forall (λ _ s, slot_membuf s ≠ dm_membuf dm) (slots w) ∧
        w' = (if decide (dms = NULL) then id
              else λ w, set_heap_avail (λ a, a + sizeof_data_mover)
                          (set_movers (delete dms) w))
               (set_heap_avail (λ a, a + sizeof_membuf)
                  (set_membufs (delete (dm_membuf dm)) w)).
Proof.
  unfold mover_delete. intros Hdel.
  apply bind_inv in Hdel as (dm & w0 & Hdm & Hdel).
  apply load_mover_inv in Hdm as [Hdm ->].
  apply bind_inv in Hdel as (u' & w1 & Hmbdel & Hfree).
  unfold membuf_delete in Hmbdel.
  apply bind_inv in Hmbdel as (mb & w2 & Hmb & Hmbdel).
  apply load_membuf_inv in Hmb as [Hmb ->].
  apply bind_inv in Hmbdel as (sl & w3 & Hsl & Hmbdel).
  injection Hsl as <- <-.
  destruct (decide (map_Forall (λ _ s, slot_membuf s ≠ dm_membuf dm) (slots w)))
    as [Hnone|]; [|done].
  apply bind_inv in Hmbdel as (u2 & w4 & Hmbdel & Havail).
  injection Hmbdel as _ <-. injection Havail as _ <-.
  exists dm. split; [done|]. split; [eauto|]. split; [done|].
  unfold free in Hfree. destruct (decide (dms = NULL)) as [->|Hne].
  - by injection Hfree as _ <-.
  - apply bind_inv in Hfree as (dm' & w5 & Hdm' & Hfree).
    apply load_mover_inv in Hdm' as [_ ->].
    apply bind_inv in Hfree as (u3 & w6 & Hfree & Havail).
    injection Hfree as _ <-. by injection Havail as _ <-.
Qed.

(** X11: a [mover_delete] that returns was given a live mover whose
    allocator is live and has no slot outstanding; afterwards the allocator
    and the mover are not live, the memory of both is available again, and
    the slots, the regions, errno and the trace are as before. *)
Theorem mover_delete_effect dms w u w' :
  mover_delete dms w = Ret u w' → dms ≠ NULL →
  ∃ dm,
    movers w !! dms = Some dm ∧
    is_Some (membufs w !! dm_membuf dm) ∧
    (∀ p s, slots w !! p = Some s → slot_membuf s ≠ dm_membuf dm) ∧
    movers w' = delete dms (movers w) ∧
    membufs w' = delete (dm_membuf dm) (membufs w) ∧
    heap_avail w' = heap_avail w + sizeof_membuf + sizeof_data_mover ∧
    slots w' = slots w ∧ maps w' = maps w ∧
    errno w' = errno w ∧ trace w' = trace w.
Proof.
  intros Hdel Hne.
  destruct (mover_delete_shape _ _ _ _ Hdel) as (dm & Hdm & Hmb & Hnone & ->).
  rewrite decide_False by done.
  exists dm. simpl. repeat split; try done.
Qed.

(** X12: each function of the file keeps the heap well-formed: if every
    live slot has a live allocator before a call that returns, the same
    holds after it. *)
Theorem slots_owned_preserved w :
  slots_owned w →
  (∀ vdm type p w', sync_operation_new vdm type w = Ret p w' → slots_owned w') ∧
  (∀ data operation n r w',
     sync_operation_start data operation n w = Ret r w' → slots_owned w') ∧
  (∀ data operation st w',
     sync_operation_check data operation w = Ret st w' → slots_owned w') ∧
  (∀ data operation output out w',
     sync_operation_delete data operation output w = Ret out w' → slots_owned w') ∧
  (∀ map vdm r w', mover_new map vdm w = Ret r w' → slots_owned w') ∧
  (∀ dms u w', mover_delete dms w = Ret u w' → slots_owned w').
Proof.
  intros Howned. repeat split.
  - intros vdm type p w' Hnew.
    destruct (sync_operation_new_shape _ _ _ _ _ Hnew)
      as (dm & _ & Hmb & [[-> ->] | (_ & _ & ->)]); [done|].
    unfold slots_owned. simpl. by repeat apply map_Forall_insert_2.
  - intros data operation n r w' Hstart.
    destruct (sync_operation_start_shape _ _ _ _ _ _ Hstart)
      as (s & mb & dm & m & Hs & Hmb & _ & _ & _ & _ & ->).
    unfold slots_owned. simpl. apply map_Forall_insert_2; [|done]. simpl. eauto.
  - intros data operation st w' Hcheck.
    by destruct (sync_operation_check_shape _ _ _ _ _ Hcheck) as (s & _ & _ & ->).
  - intros data operation output out w' Hdel.
    destruct (sync_operation_delete_shape _ _ _ _ _ _ Hdel) as (s & _ & _ & _ & ->).
    unfold slots_owned. simpl. by apply map_Forall_delete.
  - intros map vdm r w'.
    destruct (decide (sizeof_data_mover ≤ heap_avail w)) as [Hfit|Hfull];
      [destruct (decide (sizeof_membuf ≤ heap_avail w - sizeof_data_mover))
         as [Hroom|Hfull]|].
    + rewrite mover_new_success by done. intros [= <- <-].
      intros p s Hs. simpl in Hs. destruct (Howned p s Hs) as [mb Hmb].
      simpl. destruct (mover_created_fresh map w) as (_ & _ & Hfree).
      rewrite lookup_insert_ne by (intros Heq; rewrite Heq, Hmb in Hfree; done).
      eauto.
    + rewrite mover_new_membuf_failure by done. by intros [= <- <-].
    + rewrite mover_new_no_memory by done. by intros [= <- <-].
  - intros dms u w' Hdel.
    destruct (mover_delete_shape _ _ _ _ Hdel) as (dm & _ & _ & Hnone & ->).
    intros p s Hs.
    assert (slots w !! p = Some s) as Hlive by (by destruct (decide (dms = NULL))).
    destruct (Howned p s Hlive) as [mb Hmb].
    assert (delete (dm_membuf dm) (membufs w) !! slot_membuf s = Some mb) as Heq
      by (rewrite lookup_delete_ne; [done | exact (not_eq_sym (Hnone p s Hlive))]).
    destruct (decide (dms = NULL)); simpl; rewrite Heq; eauto.
Qed.

Lemma mover_delete_emit e dms w u w' :
  mover_delete dms w = Ret u w' →
  mover_delete dms (emit e w) = Ret u (emit e w').
Proof.
  intros Hdel.
  destruct (mover_delete_shape _ _ _ _ Hdel) as (dm & Hdm & [mbr Hmb] & Hnone & ->).
  destruct u.
  unfold mover_delete, membuf_delete, free, load_mover, load_membuf. munfold. simpl.
  rewrite Hdm. simpl. rewrite Hmb. simpl.
  rewrite decide_True by done. simpl.
  destruct (decide (dms = NULL)); simpl; [done|].
  by rewrite Hdm.
Qed.

(** X13: a whole session leaks nothing.  In a world where every slot has
    a live allocator, the region is mapped and there is memory for a
    mover, its allocator and one operation, [mover_new] returns 0, the
    mover it stored hands out an operation, a copy or a move on it runs
    through start, check and delete, and the [mover_delete] that follows
    returns; the world at the end is the world at the start with the three
    events of the operation in the trace. *)
Theorem session_roundtrip map vdm w m type operation n output :
  slots_owned w →
  maps w !! map = Some m →
  sizeof_data_mover ≤ heap_avail w →
  sizeof_membuf ≤ heap_avail w - sizeof_data_mover →
  sizeof_data_mover_op ≤ heap_avail w - sizeof_data_mover - sizeof_membuf →
  op_type operation = VDM_OPERATION_MEMCPY ∨
  op_type operation = VDM_OPERATION_MEMMOVE →
  ∃ dms w1 p w2 w3 w4 out w5,
    mover_new map vdm w = Ret (0, dms) w1 ∧
    sync_operation_new dms type w1 = Ret p w2 ∧ p ≠ NULL ∧
    sync_operation_start p operation n w2 =
      Ret (0, (λ _, {| notifier_used := FUTURE_NOTIFIER_NONE |}) <$> n) w3 ∧
    sync_operation_check p operation w3 = Ret FUTURE_STATE_COMPLETE w4 ∧
    sync_operation_delete p operation output w4 = Ret out w5 ∧
    out_type out = op_type operation ∧
    out_result out = VDM_SUCCESS ∧
    out_dest out = data_dest operation ∧
    mover_delete dms w5 =
      Ret tt
        (emit (EvAtomicLoad32 p 1 memory_order_acquire)
           (emit (EvAtomicStore32 p 1 memory_order_release)
              (emit (EvMemFn (durable_fn m (op_type operation))
                       (data_dest operation) (data_src operation)
                       (data_n operation) PMEM2_F_MEM_NONTEMPORAL) w))).
Proof.
  intros Howned Hm Hfit Hroom Hroom' Hkind.
  pose proof (mover_created_ready map w m Hm) as Hready.
  pose proof Hready as (Hdm & Hmb & _ & _).
  assert (sizeof_data_mover_op ≤ heap_avail (mover_created map w)) as Hop
    by (simpl; lia).
  pose proof (sync_operation_new_success _ type _ _ _ Hdm Hmb Hop) as Hnew.
  assert (fresh (live (mover_created map w)) ≠ NULL) as Hp by apply fresh_live.
  destruct (operation_lifecycle_run _ _ _ _ _ type _ _ operation n output
              Hready Hnew Hp Hkind) as (w3 & w4 & Hstart & Hcheck & Hdelete).
  eexists _, _, _, _, w3, w4, _, _.
  split; [by apply mover_new_success|]. split; [exact Hnew|]. split; [exact Hp|].
  split; [exact Hstart|]. split; [exact Hcheck|]. split; [exact Hdelete|].
  split; [done|]. split; [done|]. split; [done|].
  do 3 apply mover_delete_emit. by apply mover_delete_created.
Qed.

(** X14: on a mapped region whose mover is in working order and has the
    vtable of this file, with memory for one operation,
    [pmem2_memcpy_async] returns an idle future without copying anything;
    driving the future's handle with the future's operation calls the
    memcpy function of the mover's region once with the destination, source
    and length the entry point was given and PMEM2_F_MEM_NONTEMPORAL,
    whatever its flags argument was, and the output echoes the
    destination. *)
Theorem pmem2_memcpy_async_drive map pmemdest src len flags w m dm mb m' output :
  maps w !! map = Some m →
  mover_ready w (map_vdm m) dm mb m' →
  op_new (dm_base dm) = fn_sync_operation_new →
  sizeof_data_mover_op ≤ heap_avail w →
  ∃ fut w1 w2 w3 out,
    pmem2_memcpy_async map pmemdest src len flags w = Ret fut w1 ∧
    fut_data fut ≠ NULL ∧
    fut_state fut = FUTURE_STATE_IDLE ∧
    fut_vdm fut = map_vdm m ∧
    trace w1 = trace w ∧
    sync_operation_start (fut_data fut) (fut_operation fut) None w1 =
      Ret (0, None) w2 ∧
    sync_operation_check (fut_data fut) (fut_operation fut) w2 =
      Ret FUTURE_STATE_COMPLETE w3 ∧
    sync_operation_delete (fut_data fut) (fut_operation fut) output w3 =
      Ret out
          (emit (EvAtomicLoad32 (fut_data fut) 1 memory_order_acquire)
             (emit (EvAtomicStore32 (fut_data fut) 1 memory_order_release)
                (emit (EvMemFn (map_memcpy_fn m') pmemdest src len
                         PMEM2_F_MEM_NONTEMPORAL) w))) ∧
    out_type out = VDM_OPERATION_MEMCPY ∧
    out_result out = VDM_SUCCESS ∧
    out_dest out = pmemdest.
Proof.
  intros Hm Hready Hvtable Hroom.
  pose proof Hready as (Hdm & Hmb & _ & _).
  pose proof (sync_operation_new_success _ VDM_OPERATION_MEMCPY _ _ _ Hdm Hmb Hroom)
    as Hnew.
  assert (fresh (live w) ≠ NULL) as Hp by apply fresh_live.
  set (operation := {| op_type := VDM_OPERATION_MEMCPY; data_dest := pmemdest;
                       data_src := src; data_n := len; data_flags := 0 |}).
  destruct (operation_lifecycle_run _ _ _ _ _ VDM_OPERATION_MEMCPY _ _ operation
              None output Hready Hnew Hp (or_introl eq_refl))
    as (w2 & w3 & Hstart & Hcheck & Hdelete).
  eexists _, _, w2, w3, _. split.
  - unfold pmem2_memcpy_async.
    rewrite (bind_Ret _ _ _ _ _ (load_map_live _ _ _ Hm)).
    unfold vdm_memcpy.
    rewrite (bind_Ret _ _ _ _ _ (load_mover_live _ _ _ Hdm)).
    rewrite Hvtable. simpl.
    rewrite (bind_Ret _ _ _ _ _ Hnew). reflexivity.
  - simpl. split; [done|]. split; [done|]. split; [done|]. split; [done|].
    split; [exact Hstart|]. split; [exact Hcheck|]. split; [exact Hdelete|]. done.
Qed.

(** X15: [sync_operation_start] does not look at the flag: on a handle it
    has returned for, a second start with the same operation returns as
    well, calls the region's function and stores the flag once more, and
    leaves the slots as the first start left them. *)
Theorem sync_operation_start_again data operation n w r w' :
  sync_operation_start data operation n w = Ret r w' →
  ∀ n', ∃ r' w'' e,
    sync_operation_start data operation n' w' = Ret r' w'' ∧
    r'.1 = 0 ∧
    slots w'' = slots w' ∧
    trace w' = trace w ++ [e; EvAtomicStore32 data 1 memory_order_release] ∧
    trace w'' = trace w' ++ [e; EvAtomicStore32 data 1 memory_order_release].
Proof.
  intros Hstart n'.
  destruct (sync_operation_start_shape _ _ _ _ _ _ Hstart)
    as (s & mb & dm & m & Hs & Hmb & Hdm & Hm & Hkind & -> & ->).
  eexists _, _, _. split.
  - apply (sync_operation_start_run _ data operation n' (with_complete 1 s) mb dm m
             (durable_fn m (op_type operation))); try done.
    + simpl. apply lookup_insert_eq.
    + destruct Hkind as [Hk | Hk]; rewrite Hk; [by left | by right].
  - simpl. split; [done|]. split; [apply insert_insert_eq|].
    by rewrite <- !app_assoc.
Qed.

(** X16: complete is terminal while the operation is live.  Once the flag
    of a live handle is non-zero, no sequence of new, start and check calls
    that returns, on this or any other handle or mover, brings it back to
    zero: a check of the handle after the sequence reports COMPLETE. *)
Theorem complete_is_terminal steps data operation w c u w' :
  complete_flag w data = Some c → c ≠ 0 →
  drive steps w = Ret u w' →
  ∃ c' w'',
    complete_flag w' data = Some c' ∧ c' ≠ 0 ∧
    sync_operation_check data operation w' = Ret FUTURE_STATE_COMPLETE w''.
Proof.
  revert w c. induction steps as [|step steps IH]; intros w c Hflag Hc Hdrive.
  - injection Hdrive as _ <-. exists c.
    unfold complete_flag in Hflag.
    destruct (slots w !! data) as [s|] eqn:Hs; [|done].
    injection Hflag as <-. eexists. split; [by unfold complete_flag; rewrite Hs|].
    split; [done|]. rewrite (sync_operation_check_run _ _ _ _ Hs).
    unfold state_of_flag. by rewrite decide_False.
  - unfold complete_flag in Hflag.
    destruct (slots w !! data) as [s|] eqn:Hs; [|done]. injection Hflag as <-.
    destruct step as [vdm type | data' operation' n | data' operation']; simpl in Hdrive;
      apply bind_inv in Hdrive as (x & w1 & Hstep & Hdrive).
    + destruct (sync_operation_new_shape _ _ _ _ _ Hstep)
        as (dm & _ & _ & [[-> ->] | (_ & Hfree & ->)]).
      * apply (IH w (dmo_complete (slot_val s))); try done.
        unfold complete_flag. by rewrite Hs.
      * eapply (IH _ (dmo_complete (slot_val s))); [|exact Hc|exact Hdrive].
        unfold complete_flag. simpl.
        rewrite !lookup_insert_ne by (intros ->; by rewrite Hs in Hfree).
        by rewrite Hs.
    + destruct (sync_operation_start_shape _ _ _ _ _ _ Hstep)
        as (s' & mb & dm & m & Hs' & _ & _ & _ & _ & _ & ->).
      destruct (decide (data' = data)) as [->|Hne].
      * eapply (IH _ 1); [|done|exact Hdrive].
        unfold complete_flag. simpl. by rewrite lookup_insert_eq.
      * eapply (IH _ (dmo_complete (slot_val s))); [|exact Hc|exact Hdrive].
        unfold complete_flag. simpl. rewrite lookup_insert_ne by done.
        by rewrite Hs.
    + destruct (sync_operation_check_shape _ _ _ _ _ Hstep) as (s' & _ & _ & ->).
      eapply (IH _ (dmo_complete (slot_val s))); [|exact Hc|exact Hdrive].
      unfold complete_flag. simpl. by rewrite Hs.
Qed.

End Properties.

(** * The properties on the example worlds *)

Section Examples.
#[local] Existing Instance example_platform.

Lemma sync_operation_start_dispatch_witness :
  (∃ r w', sync_operation_start 4097 copy_op None inflight_world = Ret r w' ∧
     trace w' = trace inflight_world ++
       [EvMemFn 1001 8192 12288 4096 2;
        EvAtomicStore32 4097 1 memory_order_release] ∧
     complete_flag w' 4097 = Some 1) ∧
  (∃ r w', sync_operation_start 4097 move_op None inflight_world = Ret r w' ∧
     trace w' = trace inflight_world ++
       [EvMemFn 1002 8192 8200 64 2;
        EvAtomicStore32 4097 1 memory_order_release] ∧
     complete_flag w' 4097 = Some 1).
Proof.
  split.
  - exact (proj1 (sync_operation_start_dispatch inflight_world 4097 copy_op None
                    _ _ _ _ eq_refl eq_refl eq_refl eq_refl) eq_refl).
  - exact (proj2 (sync_operation_start_dispatch inflight_world 4097 move_op None
                    _ _ _ _ eq_refl eq_refl eq_refl eq_refl) eq_refl).
Defined.

Lemma sync_operation_start_notifier_witness :
  (∃ n' w',
     sync_operation_start 4097 copy_op
       (Some {| notifier_used := FUTURE_NOTIFIER_WAKER |}) inflight_world =
       Ret (0, Some n') w' ∧
     notifier_used n' = FUTURE_NOTIFIER_NONE) ∧
  (∃ w', sync_operation_start 4097 move_op None inflight_world = Ret (0, None) w').
Proof.
  split.
  - exact (proj1 (sync_operation_start_notifier inflight_world 4097 copy_op
                    _ _ _ _ eq_refl eq_refl eq_refl eq_refl (or_introl eq_refl))
             {| notifier_used := FUTURE_NOTIFIER_WAKER |}).
  - exact (proj2 (sync_operation_start_notifier inflight_world 4097 move_op
                    _ _ _ _ eq_refl eq_refl eq_refl eq_refl (or_intror eq_refl))).
Defined.

Lemma unsupported_kind_is_fatal_witness :
  sync_operation_start 4097 other_op None inflight_world =
    Fatal "unsupported operation type" inflight_world ∧
  sync_operation_delete 4097 other_op stale_output inflight_world =
    Fatal "unsupported operation type" inflight_world.
Proof.
  assert (op_type other_op ≠ VDM_OPERATION_MEMCPY) as Hcpy by discriminate.
  assert (op_type other_op ≠ VDM_OPERATION_MEMMOVE) as Hmov by discriminate.
  exact (proj1 (unsupported_kind_is_fatal inflight_world 4097 other_op None
                  stale_output _ _ eq_refl eq_refl Hcpy Hmov)).
Defined.

Lemma sync_operation_delete_output_witness :
  (∃ out w',
     sync_operation_delete 4097 copy_op stale_output started_world = Ret out w' ∧
     out_type out = VDM_OPERATION_MEMCPY ∧
     out_result out = VDM_SUCCESS ∧
     out_dest out = 8192 ∧
     slots w' = delete 4097 (slots started_world) ∧
     slots w' !! 4097 = None ∧
     heap_avail w' = 52 + 48) ∧
  (∃ out w',
     sync_operation_delete 4097 move_op stale_output started_world = Ret out w' ∧
     out_type out = VDM_OPERATION_MEMMOVE ∧
     out_result out = VDM_SUCCESS ∧
     out_dest out = 8192 ∧
     slots w' = delete 4097 (slots started_world) ∧
     slots w' !! 4097 = None ∧
     heap_avail w' = 52 + 48).
Proof.
  split.
  - exact (sync_operation_delete_output started_world 4097 copy_op stale_output
             _ eq_refl (or_introl eq_refl)).
  - exact (sync_operation_delete_output started_world 4097 move_op stale_output
             _ eq_refl (or_intror eq_refl)).
Defined.

Lemma sync_operation_new_result_witness :
  sync_operation_new 16 VDM_OPERATION_MEMCPY exhausted_world =
    Ret NULL exhausted_world ∧
  (∃ w2, sync_operation_new 16 VDM_OPERATION_MEMCPY example_world = Ret 4097 w2 ∧
         complete_flag w2 4097 = Some 0).
Proof.
  assert (4097 ≠ NULL) as Hp by discriminate.
  split.
  - exact (proj1 (sync_operation_new_result 16 VDM_OPERATION_MEMCPY exhausted_world
                    _ NULL exhausted_world eq_refl eq_refl) eq_refl).
  - assert (membuf_alloc 64 sizeof_data_mover_op example_world =
              Ret 4097 allocated_world) as Halloc by reflexivity.
    exact (proj2 (sync_operation_new_result 16 VDM_OPERATION_MEMCPY example_world
                    _ 4097 _ eq_refl Halloc) Hp).
Defined.

Lemma sync_operation_new_ignores_type_witness :
  sync_operation_new 16 VDM_OPERATION_MEMCPY example_world =
    sync_operation_new 16 (VDM_OPERATION_other 2) example_world ∧
  (∃ w2,
     sync_operation_new 16 (VDM_OPERATION_other 2) example_world = Ret 4097 w2 ∧
     sync_operation_start 4097 other_op None w2 =
       Fatal "unsupported operation type" w2 ∧
     sync_operation_delete 4097 other_op stale_output w2 =
       Fatal "unsupported operation type" w2).
Proof.
  assert (4097 ≠ NULL) as Hp by discriminate.
  split.
  - exact (proj1 (sync_operation_new_ignores_type 16 example_world)
             VDM_OPERATION_MEMCPY (VDM_OPERATION_other 2)).
  - assert (membuf_alloc 64 sizeof_data_mover_op example_world =
              Ret 4097 allocated_world) as Halloc by reflexivity.
    destruct (proj2 (sync_operation_new_ignores_type 16 example_world)
                2 _ 4097 _ eq_refl Halloc Hp) as (w2 & Hnew & Hlater).
    exists w2. split; [exact Hnew|].
    exact (Hlater other_op None stale_output eq_refl).
Defined.

Lemma sync_operation_check_state_witness :
  (∃ st w', sync_operation_check 4097 copy_op started_world = Ret st w' ∧
     (st = FUTURE_STATE_COMPLETE ↔ 1 ≠ 0) ∧ (st = FUTURE_STATE_IDLE ↔ 1 = 0)) ∧
  (∃ w', sync_operation_check 4097 copy_op inflight_world =
           Ret FUTURE_STATE_IDLE w') ∧
  (∃ w', poll 3 4097 copy_op inflight_world =
           Ret [FUTURE_STATE_IDLE; FUTURE_STATE_IDLE; FUTURE_STATE_IDLE] w') ∧
  (∃ w', sync_operation_check 4097 copy_op started_world =
           Ret FUTURE_STATE_COMPLETE w') ∧
  (∃ w', poll 3 4097 copy_op started_world =
           Ret [FUTURE_STATE_COMPLETE; FUTURE_STATE_COMPLETE;
                FUTURE_STATE_COMPLETE] w').
Proof.
  assert (4097 ≠ NULL) as Hp by discriminate.
  assert (sync_operation_new 16 VDM_OPERATION_MEMCPY example_world =
            Ret 4097 inflight_world) as Hnew by reflexivity.
  assert (sync_operation_start 4097 copy_op None inflight_world =
            Ret (0, None) started_world) as Hstart by reflexivity.
  split; [|split; [|split; [|split]]].
  - exact (proj1 (sync_operation_check_state 4097 copy_op started_world) _ eq_refl).
  - exact (proj1 (proj1 (proj2 (sync_operation_check_state 4097 copy_op inflight_world))
                    16 VDM_OPERATION_MEMCPY example_world Hnew Hp)).
  - exact (proj2 (proj1 (proj2 (sync_operation_check_state 4097 copy_op inflight_world))
                    16 VDM_OPERATION_MEMCPY example_world Hnew Hp) 3%nat).
  - exact (proj1 (proj2 (proj2 (sync_operation_check_state 4097 copy_op started_world))
                    copy_op None (0, None) inflight_world Hstart)).
  - exact (proj2 (proj2 (proj2 (sync_operation_check_state 4097 copy_op started_world))
                    copy_op None (0, None) inflight_world Hstart) 3%nat).
Defined.

Lemma mover_new_result_witness :
  (∃ w3, mover_new 4096 NULL (bare_world 100) = Ret (-12, 4097) w3 ∧
         movers w3 = ∅ ∧ membufs w3 = ∅ ∧ heap_avail w3 = 100) ∧
  (∃ w3, mover_new 4096 NULL (bare_world 200) = Ret (0, 4097) w3 ∧
         movers w3 !! 4097 =
           Some {| dm_base := data_mover_vdm; dm_map := 4096; dm_membuf := 4098 |} ∧
         membufs w3 !! 4098 = Some {| mb_user_data := 4097 |}).
Proof.
  assert (4097 ≠ NULL) as Hp by discriminate.
  assert (4098 ≠ NULL) as Hq by discriminate.
  split.
  - assert (pmem2_malloc sizeof_data_mover (bare_world 100) =
              Ret (4097, 0) (malloced_world 100)) as Hmalloc by reflexivity.
    assert (membuf_new 4097 (mover_bound 4097 4096 (malloced_world 100)) =
              Ret NULL (set_errno 12 (mover_bound 4097 4096 (malloced_world 100))))
      as Hnew by reflexivity.
    destruct (mover_new_result 4096 NULL (bare_world 100) 4097 0 _ Hmalloc Hp)
      as (mb & w2 & Hmb & Hfail & _).
    rewrite Hnew in Hmb. injection Hmb as Hmb Hw2. subst mb w2.
    destruct (Hfail eq_refl) as (w3 & Hrun & Hmovers & _ & Hmembufs & _ & Havail).
    exists w3. split; [exact Hrun|]. split; [exact Hmovers|].
    split; [exact Hmembufs | exact Havail].
  - assert (pmem2_malloc sizeof_data_mover (bare_world 200) =
              Ret (4097, 0) (malloced_world 200)) as Hmalloc by reflexivity.
    assert (∃ w2, membuf_new 4097 (mover_bound 4097 4096 (malloced_world 200)) =
                    Ret 4098 w2) as [w2' Hnew] by (eexists; reflexivity).
    destruct (mover_new_result 4096 NULL (bare_world 200) 4097 0 _ Hmalloc Hp)
      as (mb & w2 & Hmb & _ & Hok).
    rewrite Hnew in Hmb. injection Hmb as Hmb Hw2. subst mb w2.
    exact (Hok Hq).
Defined.

Lemma pmem2_memcpy_async_ignores_flags_witness :
  pmem2_memcpy_async 4096 8192 12288 4096 0 example_world =
    pmem2_memcpy_async 4096 8192 12288 4096 77 example_world ∧
  (∃ fut w',
     pmem2_memcpy_async 4096 8192 12288 4096 77 example_world = Ret fut w' ∧
     data_flags (fut_operation fut) = 0).
Proof.
  split.
  - exact (proj1 (pmem2_memcpy_async_ignores_flags 4096 8192 12288 4096
                    example_world) 0 77).
  - assert (pmem2_memcpy_async 4096 8192 12288 4096 77 example_world =
              Ret {| fut_vdm := 16; fut_data := 4097; fut_operation := copy_op;
                     fut_state := FUTURE_STATE_IDLE |}
                  inflight_world) as Hrun by reflexivity.
    eexists _, _. split; [exact Hrun|].
    exact (proj1 (proj2 (pmem2_memcpy_async_ignores_flags 4096 8192 12288 4096
                           example_world) 77 _ _ Hrun)).
Defined.

Lemma public_futures_are_copies_witness :
  ∃ fut w',
    api_run (call_pmem2_memcpy_async 4096 8192 12288 4096 77) example_world =
      Ret (res_future fut) w' ∧
    op_type (fut_operation fut) = VDM_OPERATION_MEMCPY ∧
    fut_state fut = FUTURE_STATE_IDLE.
Proof.
  assert (api_run (call_pmem2_memcpy_async 4096 8192 12288 4096 77) example_world =
            Ret (res_future {| fut_vdm := 16; fut_data := 4097;
                               fut_operation := copy_op;
                               fut_state := FUTURE_STATE_IDLE |})
                inflight_world) as Hrun by reflexivity.
  eexists _, _. split; [exact Hrun|].
  destruct (public_futures_are_copies _ _ _ _ Hrun)
    as (map & pmemdest & src & len & flags & m & _ & _ & _ & Hkind & _ & _ & _ & Hst).
  split; [exact Hkind | exact Hst].
Defined.

(** The copy of 4096 bytes from the public entry point to the output
    descriptor: started once, complete at the first poll, destination
    echoed, slot released. *)
Example copy_scenario :
  match
    (fut ← pmem2_memcpy_async 4096 8192 12288 4096 0;
     r ← sync_operation_start (fut_data fut) (fut_operation fut) None;
     st ← sync_operation_check (fut_data fut) (fut_operation fut);
     out ← sync_operation_delete (fut_data fut) (fut_operation fut) stale_output;
     mret (r.1, st, out)) example_world
  with
  | Ret x w => Some (x, slots w, heap_avail w)
  | _ => None
  end =
  Some ((0, FUTURE_STATE_COMPLETE,
         {| out_type := VDM_OPERATION_MEMCPY; out_result := VDM_SUCCESS;
            out_dest := 8192 |}),
        ∅, 100).
Proof. reflexivity. Qed.

(** ** The further properties on the example worlds *)

Lemma sync_operation_check_readonly_witness :
  ∃ flag,
    complete_flag started_world 4097 = Some flag ∧
    FUTURE_STATE_COMPLETE = state_of_flag flag ∧
    trace (emit (EvAtomicLoad32 4097 1 memory_order_acquire) started_world) =
      trace started_world ++ [EvAtomicLoad32 4097 flag memory_order_acquire] ∧
    slots (emit (EvAtomicLoad32 4097 1 memory_order_acquire) started_world) =
      slots started_world.
Proof.
  assert (sync_operation_check 4097 copy_op started_world =
            Ret FUTURE_STATE_COMPLETE
                (emit (EvAtomicLoad32 4097 1 memory_order_acquire) started_world))
    as Hcheck by reflexivity.
  destruct (sync_operation_check_readonly 4097 copy_op started_world _ _ Hcheck)
    as (flag & Hflag & Hst & Htrace & _ & _ & Hslots & _).
  exists flag. split; [exact Hflag|]. split; [exact Hst|].
  split; [exact Htrace | exact Hslots].
Defined.

Lemma sync_operation_start_returns_witness :
  (op_type copy_op = VDM_OPERATION_MEMCPY ∨
   op_type copy_op = VDM_OPERATION_MEMMOVE) ∧
  (0, @None future_notifier).1 = 0 ∧
  complete_flag started_world 4097 = Some 1.
Proof.
  assert (sync_operation_start 4097 copy_op None inflight_world =
            Ret (0, None) started_world) as Hstart by reflexivity.
  destruct (sync_operation_start_returns 4097 copy_op None inflight_world _ _ Hstart)
    as (Hkind & Hret & _ & Hflag & _).
  split; [exact Hkind|]. split; [exact Hret | exact Hflag].
Defined.

Lemma sync_operation_start_frame_witness :
  (∃ s, slots inflight_world !! 4097 = Some s ∧
        slots started_world !! 4097 = Some (with_complete 1 s)) ∧
  (∀ p, p ≠ 4097 → slots started_world !! p = slots inflight_world !! p) ∧
  heap_avail started_world = heap_avail inflight_world.
Proof.
  assert (sync_operation_start 4097 copy_op None inflight_world =
            Ret (0, None) started_world) as Hstart by reflexivity.
  destruct (sync_operation_start_frame 4097 copy_op None inflight_world _ _ Hstart)
    as (Hown & Hothers & _ & _ & _ & Havail & _).
  split; [exact Hown|]. split; [exact Hothers | exact Havail].
Defined.

Lemma sync_operation_new_frame_witness :
  (slots example_world !! 4097 = None ∧
   heap_avail inflight_world = heap_avail example_world - 48 ∧
   trace inflight_world = trace example_world) ∧
  exhausted_world = exhausted_world.
Proof.
  assert (4097 ≠ NULL) as Hp by discriminate.
  assert (sync_operation_new 16 VDM_OPERATION_MEMCPY example_world =
            Ret 4097 inflight_world) as Hnew by reflexivity.
  assert (sync_operation_new 16 VDM_OPERATION_MEMCPY exhausted_world =
            Ret NULL exhausted_world) as Hfail by reflexivity.
  split.
  - destruct (proj2 (sync_operation_new_frame 16 VDM_OPERATION_MEMCPY example_world
                       4097 inflight_world Hnew) Hp)
      as (Hfree & _ & _ & Havail & _ & _ & _ & _ & Htrace).
    split; [exact Hfree|]. split; [exact Havail | exact Htrace].
  - exact (proj1 (sync_operation_new_frame 16 VDM_OPERATION_MEMCPY exhausted_world
                    NULL exhausted_world Hfail) eq_refl).
Defined.

Lemma sync_operation_delete_frame_witness :
  ∃ out w',
    sync_operation_delete 4097 move_op stale_output started_world = Ret out w' ∧
    out = {| out_type := VDM_OPERATION_MEMMOVE; out_result := VDM_SUCCESS;
             out_dest := 8192 |} ∧
    slots w' !! 4097 = None ∧
    trace w' = trace started_world.
Proof.
  assert (sync_operation_delete 4097 move_op stale_output started_world =
            Ret {| out_type := VDM_OPERATION_MEMMOVE; out_result := VDM_SUCCESS;
                   out_dest := 8192 |}
                (set_heap_avail (λ a, a + 48) (set_slots (delete 4097) started_world)))
    as Hdel by reflexivity.
  eexists _, _. split; [exact Hdel|].
  destruct (sync_operation_delete_frame 4097 move_op stale_output started_world
              _ _ Hdel) as (_ & Hout & _ & Hdead & _ & _ & _ & _ & _ & Htrace).
  split; [exact Hout|]. split; [exact Hdead | exact Htrace].
Defined.


Lemma example_world_ready :
  mover_ready example_world 16
    {| dm_base := data_mover_vdm; dm_map := 4096; dm_membuf := 64 |}
    {| mb_user_data := 16 |}
    {| map_memcpy_fn := 1001; map_memmove_fn := 1002; map_vdm := 16 |}.
Proof. repeat split. Qed.

Lemma example_worlds_owned :
  slots_owned example_world ∧ slots_owned inflight_world ∧
  ∀ avail, slots_owned (bare_world avail).
Proof.
  split; [|split].
  - apply map_Forall_empty.
  - apply map_Forall_singleton. by eexists.
  - intros avail. apply map_Forall_empty.
Qed.

Lemma operation_lifecycle_witness :
  ∃ w2 w3 w4 out,
    sync_operation_start 4097 move_op None inflight_world = Ret (0, None) w2 ∧
    sync_operation_check 4097 move_op w2 = Ret FUTURE_STATE_COMPLETE w3 ∧
    sync_operation_delete 4097 move_op stale_output w3 = Ret out w4 ∧
    out_dest out = 8192 ∧
    slots w4 = slots example_world ∧
    heap_avail w4 = heap_avail example_world ∧
    trace w4 = [EvMemFn 1002 8192 8200 64 2;
                EvAtomicStore32 4097 1 memory_order_release;
                EvAtomicLoad32 4097 1 memory_order_acquire].
Proof.
  assert (4097 ≠ NULL) as Hp by discriminate.
  assert (sync_operation_new 16 VDM_OPERATION_MEMCPY example_world =
            Ret 4097 inflight_world) as Hnew by reflexivity.
  destruct (operation_lifecycle example_world 16 _ _ _ VDM_OPERATION_MEMCPY 4097
              inflight_world move_op None stale_output example_world_ready Hnew Hp
              (or_intror eq_refl))
    as (w2 & w3 & w4 & out & Hstart & Hcheck & Hdelete & Hdest & _ & Hslots &
        Havail & _ & _ & _ & Htrace).
  exists w2, w3, w4, out. split; [exact Hstart|]. split; [exact Hcheck|].
  split; [exact Hdelete|]. split; [exact Hdest|]. split; [exact Hslots|].
  split; [exact Havail | exact Htrace].
Defined.

Lemma mover_new_malloc_failure_witness :
  mover_new 4096 NULL (bare_world 10) =
    Ret (-12, NULL) (set_errno 12 (bare_world 10)).
Proof.
  assert (heap_avail (bare_world 10) < sizeof_data_mover) as Hfull by reflexivity.
  exact (proj2 (mover_new_malloc_failure 4096 NULL (bare_world 10) Hfull)).
Defined.

Lemma mover_new_failure_dangling_witness :
  ∃ dms w',
    mover_new 4096 NULL (bare_world 100) = Ret (-12, dms) w' ∧
    dms ≠ NULL ∧
    movers w' !! dms = None ∧
    sync_operation_new dms VDM_OPERATION_MEMCPY w' = Undefined ∧
    mover_delete dms w' = Undefined.
Proof.
  assert (sizeof_data_mover ≤ heap_avail (bare_world 100)) as Hfit by discriminate.
  assert (heap_avail (bare_world 100) - sizeof_data_mover < sizeof_membuf)
    as Hfull by reflexivity.
  destruct (mover_new_failure_dangling 4096 NULL (bare_world 100) Hfit Hfull)
    as (dms & w' & Hnew & Hne & Hdead & Hop & Hdel).
  exists dms, w'. split; [exact Hnew|]. split; [exact Hne|]. split; [exact Hdead|].
  split; [exact (Hop VDM_OPERATION_MEMCPY) | exact Hdel].
Defined.

Lemma mover_new_delete_roundtrip_witness :
  ∃ dms w1,
    mover_new 4096 NULL (bare_world 200) = Ret (0, dms) w1 ∧
    mover_delete dms w1 = Ret tt (bare_world 200).
Proof.
  assert (sizeof_data_mover ≤ heap_avail (bare_world 200)) as Hfit by discriminate.
  assert (sizeof_membuf ≤ heap_avail (bare_world 200) - sizeof_data_mover)
    as Hroom by discriminate.
  exact (mover_new_delete_roundtrip 4096 NULL (bare_world 200)
           (proj2 (proj2 example_worlds_owned) 200) Hfit Hroom).
Defined.

Lemma mover_delete_effect_witness :
  ∃ dm,
    movers example_world !! 16 = Some dm ∧
    movers deleted_world = delete 16 (movers example_world) ∧
    membufs deleted_world = delete (dm_membuf dm) (membufs example_world) ∧
    heap_avail deleted_world = heap_avail example_world + 64 + 48.
Proof.
  assert (16 ≠ NULL) as Hne by discriminate.
  assert (mover_delete 16 example_world = Ret tt deleted_world) as Hdel
    by reflexivity.
  destruct (mover_delete_effect 16 example_world tt deleted_world Hdel Hne)
    as (dm & Hdm & _ & _ & Hmovers & Hmembufs & Havail & _).
  exists dm. split; [exact Hdm|]. split; [exact Hmovers|].
  split; [exact Hmembufs | exact Havail].
Defined.

Lemma slots_owned_preserved_witness :
  slots_owned inflight_world ∧ slots_owned started_world ∧
  slots_owned deleted_world.
Proof.
  assert (sync_operation_new 16 VDM_OPERATION_MEMCPY example_world =
            Ret 4097 inflight_world) as Hnew by reflexivity.
  assert (sync_operation_start 4097 copy_op None inflight_world =
            Ret (0, None) started_world) as Hstart by reflexivity.
  assert (mover_delete 16 example_world = Ret tt deleted_world) as Hdel
    by reflexivity.
  pose proof (slots_owned_preserved example_world (proj1 example_worlds_owned))
    as (Hpnew & _ & _ & _ & _ & Hpdel).
  pose proof (Hpnew 16 VDM_OPERATION_MEMCPY 4097 inflight_world Hnew) as Hinflight.
  pose proof (slots_owned_preserved inflight_world Hinflight)
    as (_ & Hpstart & _).
  split; [exact Hinflight|]. split.
  - exact (Hpstart 4097 copy_op None (0, None) started_world Hstart).
  - exact (Hpdel 16 tt deleted_world Hdel).
Defined.

Lemma session_roundtrip_witness :
  ∃ dms w1 p w2 w3 w4 out w5,
    mover_new 4096 NULL (bare_world 200) = Ret (0, dms) w1 ∧
    sync_operation_new dms VDM_OPERATION_MEMCPY w1 = Ret p w2 ∧ p ≠ NULL ∧
    sync_operation_start p copy_op None w2 = Ret (0, None) w3 ∧
    sync_operation_check p copy_op w3 = Ret FUTURE_STATE_COMPLETE w4 ∧
    sync_operation_delete p copy_op stale_output w4 = Ret out w5 ∧
    out_dest out = 8192 ∧
    mover_delete dms w5 =
      Ret tt
        (emit (EvAtomicLoad32 p 1 memory_order_acquire)
           (emit (EvAtomicStore32 p 1 memory_order_release)
              (emit (EvMemFn 1001 8192 12288 4096 2) (bare_world 200)))).
Proof.
  assert (sizeof_data_mover ≤ heap_avail (bare_world 200)) as Hfit by discriminate.
  assert (sizeof_membuf ≤ heap_avail (bare_world 200) - sizeof_data_mover)
    as Hroom by discriminate.
  assert (sizeof_data_mover_op ≤
            heap_avail (bare_world 200) - sizeof_data_mover - sizeof_membuf)
    as Hop by discriminate.
  destruct (session_roundtrip 4096 NULL (bare_world 200) _ VDM_OPERATION_MEMCPY
              copy_op None stale_output (proj2 (proj2 example_worlds_owned) 200)
              eq_refl Hfit Hroom Hop (or_introl eq_refl))
    as (dms & w1 & p & w2 & w3 & w4 & out & w5 & Hnew & Hopnew & Hp & Hstart &
        Hcheck & Hdelete & _ & _ & Hdest & Hdel).
  exists dms, w1, p, w2, w3, w4, out, w5.
  split; [exact Hnew|]. split; [exact Hopnew|]. split; [exact Hp|].
  split; [exact Hstart|]. split; [exact Hcheck|]. split; [exact Hdelete|].
  split; [exact Hdest | exact Hdel].
Defined.

Lemma pmem2_memcpy_async_drive_witness :
  ∃ fut w1 w2 w3 out,
    pmem2_memcpy_async 4096 8192 12288 4096 77 example_world = Ret fut w1 ∧
    fut_data fut ≠ NULL ∧
    trace w1 = trace example_world ∧
    sync_operation_start (fut_data fut) (fut_operation fut) None w1 =
      Ret (0, None) w2 ∧
    sync_operation_check (fut_data fut) (fut_operation fut) w2 =
      Ret FUTURE_STATE_COMPLETE w3 ∧
    sync_operation_delete (fut_data fut) (fut_operation fut) stale_output w3 =
      Ret out
          (emit (EvAtomicLoad32 (fut_data fut) 1 memory_order_acquire)
             (emit (EvAtomicStore32 (fut_data fut) 1 memory_order_release)
                (emit (EvMemFn 1001 8192 12288 4096 2) example_world))) ∧
    out_dest out = 8192.
Proof.
  assert (sizeof_data_mover_op ≤ heap_avail example_world) as Hroom by discriminate.
  destruct (pmem2_memcpy_async_drive 4096 8192 12288 4096 77 example_world
              _ _ _ _ stale_output eq_refl example_world_ready eq_refl Hroom)
    as (fut & w1 & w2 & w3 & out & Hrun & Hp & _ & _ & Htrace & Hstart & Hcheck &
        Hdelete & _ & _ & Hdest).
  exists fut, w1, w2, w3, out.
  split; [exact Hrun|]. split; [exact Hp|]. split; [exact Htrace|].
  split; [exact Hstart|]. split; [exact Hcheck|]. split; [exact Hdelete | exact Hdest].
Defined.

Lemma sync_operation_start_again_witness :
  ∃ r' w'' e,
    sync_operation_start 4097 copy_op None started_world = Ret r' w'' ∧
    r'.1 = 0 ∧
    slots w'' = slots started_world ∧
    trace w'' = trace started_world ++
      [e; EvAtomicStore32 4097 1 memory_order_release].
Proof.
  assert (sync_operation_start 4097 copy_op None inflight_world =
            Ret (0, None) started_world) as Hstart by reflexivity.
  destruct (sync_operation_start_again 4097 copy_op None inflight_world _ _
              Hstart None) as (r' & w'' & e & Hagain & Hret & Hslots & _ & Htrace).
  exists r', w'', e. split; [exact Hagain|]. split; [exact Hret|].
  split; [exact Hslots | exact Htrace].
Defined.

Lemma complete_is_terminal_witness :
  ∃ u w' c' w'',
    drive [step_check 4097 copy_op; step_new 16 VDM_OPERATION_MEMMOVE;
           step_start 4097 move_op None; step_check 4097 copy_op]
      started_world = Ret u w' ∧
    complete_flag w' 4097 = Some c' ∧ c' ≠ 0 ∧
    sync_operation_check 4097 copy_op w' = Ret FUTURE_STATE_COMPLETE w''.
Proof.
  assert (1 ≠ 0) as Hc by discriminate.
  assert (∃ w', drive [step_check 4097 copy_op; step_new 16 VDM_OPERATION_MEMMOVE;
                       step_start 4097 move_op None; step_check 4097 copy_op]
                  started_world = Ret tt w') as [w' Hdrive]
    by (eexists; reflexivity).
  destruct (complete_is_terminal _ 4097 copy_op started_world 1 tt w'
              eq_refl Hc Hdrive) as (c' & w'' & Hflag & Hne & Hcheck).
  exists tt, w', c', w''. split; [exact Hdrive|]. split; [exact Hflag|].
  split; [exact Hne | exact Hcheck].
Defined.

End Examples.

(** C4, as the specification states it, fails: on no platform, in no world and with no
    arguments does a public function of the file return a future that
    carries a move operation. *)
Lemma no_public_move_future :
  ¬ ∃ (P : Platform) (c : api_call) (w w' : world) (fut : vdm_operation_future),
      @api_run P c w = Ret (res_future fut) w' ∧
      op_type (fut_operation fut) = VDM_OPERATION_MEMMOVE.
Proof.
  intros (P & c & w & w' & fut & Hrun & Hkind).
  destruct (@api_run_future_inv P c w fut w' Hrun)
    as (map & pmemdest & src & len & flags & m & _ & _ & _ & Hop & _).
  rewrite Hop in Hkind. discriminate.
Qed.
